(** * Stale-items dashboard: data pipeline of [stale-dashboard/app.js]

    A shallow embedding of the [StaleDashboard] class: the Source Adapter
    ([fetchStaleItems], [loadData]), the Filter/Sort Engine ([applyFilters],
    [sortBy]), the History Loader ([loadHistoricalData]) and the Trend
    Reducer ([updateCharts], [renderTrendsChart], [renderBreakdownChart]);
    then the Aggregation Store ([updateStats], [populateRepoFilter]), the
    table cells ([truncate], [formatDate]) and the listeners
    ([setupEventListeners]).

    The object [this] is an explicit state record threaded through a small
    state-and-exception monad, so that [try]/[catch] and the mutation of
    [this.staleItems] that survives a throw are both visible.  The DOM and
    the chart library are outside the model: the values read from the DOM
    are a record passed in, and the render functions return the series they
    hand to the chart constructor.  The network is a parameter: a function
    from requests to what [fetch] gives.  The records of the items listing
    and the snapshot files are typed as their schema gives them, with the
    points where the code can throw kept (a rejected fetch, a body that is
    not JSON or not an array, a record whose [user] is null); the clock and
    the host's time zone are parameters of the functions that read them. *)

From Stdlib Require Import ZArith NArith List String Ascii Bool Lia.
From Stdlib Require Import Permutation Sorted DecimalString.
From Stdlib Require DecimalZ DecimalPos DecimalN OrderedTypeEx.
Import ListNotations.
Open Scope string_scope.
Open Scope list_scope.
Open Scope Z_scope.

(* ================================================================== *)
(** * Part I: definitions *)
(* ================================================================== *)

(** ** The fragment of JavaScript the class relies on *)

Module JS.

(** A JSON value as [response.json()] produces it.  Numbers are integers:
    the records of this program carry counts and issue numbers only. *)
#[local] Unset Elimination Schemes.
Inductive value : Type :=
| Undefined
| Null
| Bool (b : bool)
| Num (n : Z)
| Str (s : string)
| Arr (elems : list value)
| Obj (fields : list (string * value)).
#[local] Set Elimination Schemes.

(** ToBoolean. *)
Definition truthy (v : value) : bool :=
  match v with
  | Undefined | Null => false
  | Bool b => b
  | Num n => negb (n =? 0)
  | Str s => negb (s =? EmptyString)%string
  | Arr _ | Obj _ => true
  end.

(** Abrupt completions. *)
Inductive error : Type :=
| TypeError
| SyntaxError
| NetworkError.

Inductive completion (A : Type) : Type :=
| Normal (a : A)
| Throw (e : error).
Arguments Normal {A} a.
Arguments Throw {A} e.

(** A computation over a mutable store [S]: the store as it is when the
    computation ends is returned also when the computation throws. *)
Definition M (S A : Type) : Type := S -> completion A * S.

Definition ret {S A} (a : A) : M S A := fun s => (Normal a, s).

Definition throw {S A} (e : error) : M S A := fun s => (Throw e, s).

Definition bind {S A B} (m : M S A) (k : A -> M S B) : M S B :=
  fun s =>
    match m s with
    | (Normal a, s') => k a s'
    | (Throw e, s') => (Throw e, s')
    end.

(** [try { m } catch (e) { h e }]. *)
Definition try_catch {S A} (m : M S A) (h : error -> M S A) : M S A :=
  fun s =>
    match m s with
    | (Normal a, s') => (Normal a, s')
    | (Throw e, s') => h e s'
    end.

Definition get {S} : M S S := fun s => (Normal s, s).

Definition modify {S} (f : S -> S) : M S unit := fun s => (Normal tt, f s).

(** [arr.forEach(f)], also the body of a [for ... of] loop. *)
Fixpoint forEach {S A} (f : A -> M S unit) (arr : list A) : M S unit :=
  match arr with
  | [] => ret tt
  | x :: rest => bind (f x) (fun _ => forEach f rest)
  end.

(** *** Strings *)

(** [toLowerCase] on the ASCII letters; other bytes are left alone. *)
Definition lower_ascii (c : ascii) : ascii :=
  let n := N_of_ascii c in
  if ((65 <=? n) && (n <=? 90))%N then ascii_of_N (n + 32) else c.

Fixpoint toLowerCase (s : string) : string :=
  match s with
  | EmptyString => EmptyString
  | String c rest => String (lower_ascii c) (toLowerCase rest)
  end.

(** [s.includes(sub)]. *)
Fixpoint includes (s sub : string) : bool :=
  if String.prefix sub s then true
  else match s with
       | EmptyString => false
       | String _ rest => includes rest sub
       end.

(** *** [parseInt] with no radix argument *)

Definition isWhiteSpace (c : ascii) : bool :=
  let n := N_of_ascii c in
  (((9 <=? n) && (n <=? 13)) || (n =? 32))%N.

Fixpoint trimStart (s : string) : string :=
  match s with
  | String c rest => if isWhiteSpace c then trimStart rest else s
  | EmptyString => EmptyString
  end.

(** The value of [c] as a digit of the given radix, if it is one. *)
Definition digitValue (radix : Z) (c : ascii) : option Z :=
  let n := Z.of_N (N_of_ascii c) in
  let v := if (48 <=? n) && (n <=? 57) then Some (n - 48)
           else if (97 <=? n) && (n <=? 122) then Some (n - 87)
           else if (65 <=? n) && (n <=? 90) then Some (n - 55)
           else None in
  match v with
  | Some d => if d <? radix then Some d else None
  | None => None
  end.

(** Reads the longest prefix of digits; [seen] tells whether a digit has
    been read, [acc] is the value of the digits read so far. *)
Fixpoint parseDigits (radix : Z) (seen : bool) (acc : Z) (s : string)
  : option Z :=
  match s with
  | EmptyString => if seen then Some acc else None
  | String c rest =>
      match digitValue radix c with
      | Some d => parseDigits radix true (radix * acc + d) rest
      | None => if seen then Some acc else None
      end
  end.

(** [parseInt(s)]; [None] is NaN. *)
Definition parseInt (input : string) : option Z :=
  let s := trimStart input in
  let '(sign, s) :=
    match s with
    | String "-" rest => (-1, rest)
    | String "+" rest => (1, rest)
    | _ => (1, s)
    end in
  let '(radix, s) :=
    match s with
    | String "0" (String "x" rest) => (16, rest)
    | String "0" (String "X" rest) => (16, rest)
    | _ => (10, s)
    end in
  match parseDigits radix false 0 s with
  | Some n => Some (sign * n)
  | None => None
  end.

(** [String(n)] for an integer Number of magnitude below 10^21: the
    decimal numeral of [n].  From 10^21 on, [String] writes a Number in
    exponent notation, which this definition does not render:
    [decimalNotation] is the condition under which it is [String(n)], and
    a statement about [String] of a number of the data carries it as a
    hypothesis. *)
Definition Number_toString (n : Z) : string :=
  NilZero.string_of_int (Z.to_int n).

Definition decimalNotation (n : Z) : bool := Z.abs n <? 10 ^ 21.

(** *** Relational comparison of primitives of the same type *)

(** [a < b] on numbers, NaN ([None]) making it false. *)
Definition num_lt (a b : option Z) : bool :=
  match a, b with
  | Some x, Some y => x <? y
  | _, _ => false
  end.

(** [a < b] on strings: code units compared in order. *)
Definition str_lt (a b : string) : bool := String.ltb a b.

(** *** [Array.prototype.sort]

    The comparator returns a Number; a positive result puts its first
    argument after its second, anything else leaves the two as they are.
    The sort is stable (ECMAScript 2019), and with a consistent
    comparator its result is the one stable ordering, whatever algorithm
    the engine runs; it is written here as an insertion sort. *)
Section Sort.
Context {A : Type} (comparefn : A -> A -> Z).

Fixpoint insert (x : A) (sorted : list A) : list A :=
  match sorted with
  | [] => [x]
  | y :: rest =>
      if 0 <? comparefn x y then y :: insert x rest else x :: sorted
  end.

Definition sort (arr : list A) : list A := fold_right insert [] arr.
End Sort.

(** [arr.slice(0, n)]. *)
Definition slice0 {A} (n : nat) (arr : list A) : list A := firstn n arr.

(** *** Dates

    A time value is a number of milliseconds since the epoch, UTC.  A
    calendar date [YYYY-MM-DD] is identified with its day number, the
    count of days since 1970-01-01. *)
Definition msPerDay : Z := 86400000.

Definition Day (t : Z) : Z := t / msPerDay.

Definition TimeWithinDay (t : Z) : Z := t mod msPerDay.

Definition MakeDate (day time : Z) : Z := day * msPerDay + time.

(** The host's time zone, as the abstract operation [LocalTZA(t, isUTC)]:
    the offset of local time from UTC, in milliseconds, at the UTC time
    value [t] ([isUTC] true) or at the local time value [t] ([isUTC]
    false). *)
Record timezone : Type := { LocalTZA : Z -> bool -> Z }.

Definition LocalTime (tz : timezone) (t : Z) : Z := t + LocalTZA tz t true.

Definition UTC (tz : timezone) (tlocal : Z) : Z :=
  tlocal - LocalTZA tz tlocal false.

(** The time value that [d.setDate(d.getDate() + k)] computes, before it
    is clipped: [getDate] and [setDate] work on local time; [MakeDay]
    normalises a day of the month that is out of range, so the local
    calendar day moves by [k] and the local time of day stays. *)
Definition addLocalDays (tz : timezone) (t k : Z) : Z :=
  let tl := LocalTime tz t in
  UTC tz (MakeDate (Day tl + k) (TimeWithinDay tl)).

(** [TimeClip]: a Date holds a time value of at most 8.64e15 ms on either
    side of the epoch; beyond, its time value is NaN ([None]) and it is
    an Invalid Date. *)
Definition maxTime : Z := 8640000000000000.

Definition TimeClip (t : Z) : option Z :=
  if Z.abs t <=? maxTime then Some t else None.

(** [d.setDate(d.getDate() + k)] on a Date of time value [t], for a
    Number [k] ([None] is NaN): the time value the Date has afterwards. *)
Definition setDate (tz : timezone) (t : Z) (k : option Z) : option Z :=
  match k with
  | Some k => TimeClip (addLocalDays tz t k)
  | None => None
  end.

(** [d.toISOString().split('T')[0]]: the calendar date of [t] in UTC. *)
Definition isoDate (t : Z) : Z := Day t.

(** [new Date(s).getTime()] for a date-only ISO string: midnight UTC. *)
Definition parseDate (date : Z) : Z := date * msPerDay.

(** A zone that keeps one offset all year. *)
Definition fixedZone (offset : Z) : timezone :=
  {| LocalTZA := fun _ _ => offset |}.

End JS.

Import JS.

Notation "x <- m ;; k" := (bind m (fun x => k))
  (at level 61, m at next level, right associativity).
Notation "m ;;; k" := (bind m (fun _ => k))
  (at level 61, right associativity).

(** ** Data model *)

(** A record of the items listing endpoint, with the fields the program
    reads.  [pull_request] is whatever JSON value the record carries
    under that key ([Undefined] when the key is absent); [user] is
    nullable in the endpoint's schema; [updated_at] is the instant its ISO
    timestamp denotes. *)
Module Raw.
Record user_t : Type := { login : string }.
Record label_t : Type := { name : string }.
Record t : Type := {
  pull_request : JS.value;
  title : string;
  number : Z;
  user : option user_t;
  updated_at : Z;
  labels : list label_t;
  html_url : string;
  state : string
}.
End Raw.

(** [new Date(ms)]. *)
Record Date : Type := { getTime : Z }.

(** The object pushed on [this.staleItems]. *)
Module Item.
Record t : Type := {
  type : string;
  repo : string;
  org : string;
  repoName : string;
  title : string;
  number : Z;
  author : string;
  updated : Date;
  labels : list string;
  url : string;
  state : string
}.
End Item.

(** A file of [data/history/]: the snapshot of one day.  The counts are
    natural numbers; an absent key is [None]. *)
Module Totals.
Record t : Type := {
  totalStale : option N;
  staleIssues : option N;
  stalePRs : option N
}.
End Totals.

Module RepoStat.
Record t : Type := { repo : string; totalStale : N }.
End RepoStat.

Module Snapshot.
Record t : Type := {
  date : Z;
  totals : option Totals.t;
  repositories : option (list RepoStat.t)
}.
End Snapshot.

(** [DASHBOARD_CONFIG]; an empty [githubToken] is no token. *)
Module Config.
Record repository : Type := { org : string; repo : string }.
Record t : Type := { repositories : list repository; githubToken : string }.
End Config.

(** [this.currentSort]. *)
Record sort_state : Type := { field : string; ascending : bool }.

(** The fields of [this] that hold data. *)
Record dashboard : Type := {
  staleItems : list Item.t;
  filteredItems : list Item.t;
  historicalData : list Snapshot.t;
  currentSort : sort_state
}.

(** The state the constructor sets up. *)
Definition constructor : dashboard :=
  {| staleItems := [];
     filteredItems := [];
     historicalData := [];
     currentSort := {| field := "updated"; ascending := false |} |}.

(** The values of the controls [repo-filter], [type-filter],
    [search-filter] and [trend-period]. *)
Record dom : Type := {
  repo_filter : string;
  type_filter : string;
  search_filter : string;
  trend_period : string
}.

(** ** The network *)

(** What [response.json()] gives: a rejection on a body that is not JSON,
    or the parsed value. *)
Inductive body (B : Type) : Type :=
| InvalidJson
| Json (b : B).
Arguments InvalidJson {B}.
Arguments Json {B} b.

(** What [fetch] gives: a rejected promise, or a response with its status. *)
Inductive outcome (B : Type) : Type :=
| Rejected
| Response (status : Z) (payload : body B).
Arguments Rejected {B}.
Arguments Response {B} status payload.

(** The JSON of the items listing: the array of records, or something
    that is not an array. *)
Inductive issues_json : Type :=
| NotAnArray
| Records (items : list Raw.t).

(** A request as [fetch] is called with: the items listing of a URL with
    its [Authorization] header, or the history file of a date
    ([data/history/<date>.json]). *)
Inductive request : Type :=
| GetIssues (url : string) (authorization : option string)
| GetHistory (date : Z).

Record network : Type := {
  issuesOf : string -> option string -> outcome issues_json;
  historyOf : Z -> outcome Snapshot.t
}.

(** The store of a run: [this], and the requests issued so far. *)
Record world : Type := { this : dashboard; requests : list request }.

Definition onThis (f : dashboard -> dashboard) (w : world) : world :=
  {| this := f (this w); requests := requests w |}.

Definition logRequest (r : request) (w : world) : world :=
  {| this := this w; requests := requests w ++ [r] |}.

Record response (B : Type) : Type := { status : Z; payload : body B }.
Arguments status {B} r.
Arguments payload {B} r.

(** [response.ok]. *)
Definition ok {B} (r : response B) : bool :=
  (200 <=? status r) && (status r <=? 299).

Definition await {B} (o : outcome B) : M world (response B) :=
  match o with
  | Rejected => throw NetworkError
  | Response st p => ret {| status := st; payload := p |}
  end.

Definition fetchIssues (net : network) (url : string)
  (authorization : option string) : M world (response issues_json) :=
  modify (logRequest (GetIssues url authorization)) ;;;
  await (issuesOf net url authorization).

Definition fetchHistory (net : network) (date : Z)
  : M world (response Snapshot.t) :=
  modify (logRequest (GetHistory date)) ;;;
  await (historyOf net date).

Definition json {B} (r : response B) : M world B :=
  match payload r with
  | InvalidJson => throw SyntaxError
  | Json b => ret b
  end.

(** ** Source Adapter *)

Definition baseUrl : string := "https://api.github.com".

Definition issuesUrl (org repo : string) : string :=
  (baseUrl ++ "/repos/" ++ org ++ "/" ++ repo
     ++ "/issues?labels=stale&state=open&per_page=100")%string.

Definition headers (cfg : Config.t) : option string :=
  if (Config.githubToken cfg =? EmptyString)%string then None
  else Some ("token " ++ Config.githubToken cfg)%string.

(** The object literal of the [forEach] callback, [u] being [item.user]. *)
Definition itemOf (org repo : string) (item : Raw.t) (u : Raw.user_t)
  : Item.t :=
  {| Item.type := if truthy (Raw.pull_request item) then "pr" else "issue";
     Item.repo := (org ++ "/" ++ repo)%string;
     Item.org := org;
     Item.repoName := repo;
     Item.title := Raw.title item;
     Item.number := Raw.number item;
     Item.author := Raw.login u;
     Item.updated := {| getTime := Raw.updated_at item |};
     Item.labels := map Raw.name (Raw.labels item);
     Item.url := Raw.html_url item;
     Item.state := Raw.state item |}.

(** Evaluating it: [item.user.login] throws when [user] is null. *)
Definition normalize (org repo : string) (item : Raw.t) : M world Item.t :=
  match Raw.user item with
  | None => throw TypeError
  | Some u => ret (itemOf org repo item u)
  end.

Definition push_staleItems (it : Item.t) : M world unit :=
  modify (onThis (fun d =>
    {| staleItems := staleItems d ++ [it];
       filteredItems := filteredItems d;
       historicalData := historicalData d;
       currentSort := currentSort d |})).

(** [issues.forEach] throws when [issues] is not an array. *)
Definition issues_forEach (issues : issues_json)
  (f : Raw.t -> M world unit) : M world unit :=
  match issues with
  | NotAnArray => throw TypeError
  | Records items => forEach f items
  end.

Definition fetchStaleItems (cfg : Config.t) (net : network)
  (org repo : string) : M world unit :=
  try_catch
    (issuesResponse <- fetchIssues net (issuesUrl org repo) (headers cfg) ;;
     if negb (ok issuesResponse) then ret tt
     else
       issues <- json issuesResponse ;;
       issues_forEach issues (fun item =>
         it <- normalize org repo item ;;
         push_staleItems it))
    (fun error => ret tt).

(** ** Filter/Sort Engine *)

Definition nonEmpty (s : string) : bool := negb (s =? EmptyString)%string.

(** The callback of [this.staleItems.filter] in [applyFilters]. *)
Definition keepItem (d : dom) (item : Item.t) : bool :=
  let repoFilter := repo_filter d in
  let typeFilter := type_filter d in
  let searchFilter := toLowerCase (search_filter d) in
  if nonEmpty repoFilter && negb (Item.repo item =? repoFilter)%string
  then false
  else if nonEmpty typeFilter && negb (Item.type item =? typeFilter)%string
  then false
  else if nonEmpty searchFilter
          && negb (includes (toLowerCase (Item.title item)) searchFilter)
  then false
  else true.

Definition applyFilters (d : dom) : M world unit :=
  modify (onThis (fun t =>
    {| staleItems := staleItems t;
       filteredItems := filter (keepItem d) (staleItems t);
       historicalData := historicalData t;
       currentSort := currentSort t |})).

(** [clearFilters]: the three controls are emptied, then [applyFilters]. *)
Definition clearFilters (d : dom) : M world unit :=
  applyFilters {| repo_filter := EmptyString;
                  type_filter := EmptyString;
                  search_filter := EmptyString;
                  trend_period := trend_period d |}.

(** [loadData].  [d] holds the controls as [applyFilters] reads them at
    the end of the cycle; the steps that only write to the page
    ([updateStats], [populateRepoFilter], [updateLastUpdated], [showError])
    leave the store as it is. *)
Definition loadData (cfg : Config.t) (net : network) (d : dom)
  : M world unit :=
  try_catch
    (modify (onThis (fun t =>
       {| staleItems := [];
          filteredItems := filteredItems t;
          historicalData := historicalData t;
          currentSort := currentSort t |})) ;;;
     forEach (fun r =>
       fetchStaleItems cfg net (Config.org r) (Config.repo r))
       (Config.repositories cfg) ;;;
     applyFilters d)
    (fun error => ret tt).

(** The head of [sortBy]: the toggle of [this.currentSort]. *)
Definition toggleSort (fld : string) (cur : sort_state) : sort_state :=
  if (field cur =? fld)%string
  then {| field := field cur; ascending := negb (ascending cur) |}
  else {| field := fld; ascending := false |}.

(** [a[field]] on an item. *)
Inductive fieldValue : Type :=
| FString (s : string)
| FNumber (n : Z)
| FDate (d : Date)
| FArray (l : list string)
| FUndefined.

Definition getField (item : Item.t) (fld : string) : fieldValue :=
  if (fld =? "type")%string then FString (Item.type item)
  else if (fld =? "repo")%string then FString (Item.repo item)
  else if (fld =? "org")%string then FString (Item.org item)
  else if (fld =? "repoName")%string then FString (Item.repoName item)
  else if (fld =? "title")%string then FString (Item.title item)
  else if (fld =? "number")%string then FNumber (Item.number item)
  else if (fld =? "author")%string then FString (Item.author item)
  else if (fld =? "updated")%string then FDate (Item.updated item)
  else if (fld =? "labels")%string then FArray (Item.labels item)
  else if (fld =? "url")%string then FString (Item.url item)
  else if (fld =? "state")%string then FString (Item.state item)
  else FUndefined.

(** The primitive the comparator compares: a Number ([None] is NaN) or a
    String. *)
Inductive sortKey : Type :=
| KNumber (n : option Z)
| KString (s : string).

(** [aVal] as the comparator has it before the two relational tests:
    [getTime()] for [updated], [parseInt] for [number], [toLowerCase()]
    for a string; what is left is compared as it is, an array through its
    joined string and [undefined] as NaN.  ([getField] gives a number for
    [number] and a date for [updated] only, so the two cases of the [match]
    for them are never reached.) *)
Definition keyOf (fld : string) (item : Item.t) : sortKey :=
  if (fld =? "updated")%string
  then KNumber (Some (getTime (Item.updated item)))
  else if (fld =? "number")%string
  then KNumber (parseInt (Number_toString (Item.number item)))
  else match getField item fld with
       | FString s => KString (toLowerCase s)
       | FArray l => KString (String.concat "," l)
       | FNumber n => KNumber (Some n)
       | FDate d => KNumber (Some (getTime d))
       | FUndefined => KNumber None
       end.

(** [aVal < bVal]. *)
Definition key_lt (a b : sortKey) : bool :=
  match a, b with
  | KNumber x, KNumber y => num_lt x y
  | KString x, KString y => str_lt x y
  | _, _ => false
  end.

(** The comparator handed to [this.filteredItems.sort]. *)
Definition compareItems (cur : sort_state) (fld : string) (a b : Item.t)
  : Z :=
  let aVal := keyOf fld a in
  let bVal := keyOf fld b in
  if key_lt aVal bVal then (if ascending cur then -1 else 1)
  else if key_lt bVal aVal then (if ascending cur then 1 else -1)
  else 0.

Definition sortBy (fld : string) : M world unit :=
  modify (onThis (fun t =>
    let cur := toggleSort fld (currentSort t) in
    {| staleItems := staleItems t;
       filteredItems := JS.sort (compareItems cur fld) (filteredItems t);
       historicalData := historicalData t;
       currentSort := cur |})).

(** ** Trend Reducer *)

(** [data.map(d => d.totals?.totalStale || 0)] and its two siblings. *)
Definition totalOr0 (sel : Totals.t -> option N) (d : Snapshot.t) : N :=
  match Snapshot.totals d with
  | Some t => match sel t with Some n => n | None => 0%N end
  | None => 0%N
  end.

Record trend_series : Type := {
  dates : list Z;
  totalStale : list N;
  staleIssues : list N;
  stalePRs : list N
}.

Definition renderTrendsChart (data : list Snapshot.t) : trend_series :=
  {| dates := map Snapshot.date data;
     totalStale := map (totalOr0 Totals.totalStale) data;
     staleIssues := map (totalOr0 Totals.staleIssues) data;
     stalePRs := map (totalOr0 Totals.stalePRs) data |}.

Record breakdown_series : Type := {
  labels : list string;
  staleData : list N
}.

(** [data[data.length - 1]]. *)
Definition latestOf (data : list Snapshot.t) : option Snapshot.t :=
  nth_error data (List.length data - 1).

Definition byTotalStaleDesc (a b : RepoStat.t) : Z :=
  Z.of_N (RepoStat.totalStale b) - Z.of_N (RepoStat.totalStale a).

(** The [repos] of [renderBreakdownChart]. *)
Definition topRepos (repositories : list RepoStat.t) : list RepoStat.t :=
  slice0 10
    (JS.sort byTotalStaleDesc
       (filter (fun r => (0 <? RepoStat.totalStale r)%N) repositories)).

(** [renderBreakdownChart]: [None] when it returns before it builds the
    chart. *)
Definition renderBreakdownChart (data : list Snapshot.t)
  : option breakdown_series :=
  match latestOf data with
  | None => None
  | Some latest =>
      match Snapshot.repositories latest with
      | None => None
      | Some repositories =>
          let repos := topRepos repositories in
          Some {| labels := map RepoStat.repo repos;
                  staleData := map RepoStat.totalStale repos |}
      end
  end.

(** [new Date(d.date) >= cutoffDate]: the two time values compared as
    Numbers, which is false when [cutoffDate] is an Invalid Date. *)
Definition notBefore (cutoffDate : option Z) (d : Snapshot.t) : bool :=
  match cutoffDate with
  | Some cutoff => cutoff <=? parseDate (Snapshot.date d)
  | None => false
  end.

(** The [data] of [updateCharts] after the period filter.  [now] is the
    time value of [new Date()].  [cutoffDate] is an Invalid Date when
    [parseInt(period)] is NaN and when the period reaches back beyond the
    range of time values. *)
Definition periodFilter (tz : timezone) (now : Z) (period : string)
  (historicalData : list Snapshot.t) : list Snapshot.t :=
  if negb (period =? "all")%string then
    let cutoffDate := setDate tz now (option_map Z.opp (parseInt period)) in
    filter (notBefore cutoffDate) historicalData
  else historicalData.

Record charts : Type := {
  trends : trend_series;
  breakdown : option breakdown_series
}.

(** [updateCharts]: [None] when it returns at once. *)
Definition updateCharts (tz : timezone) (now : Z) (d : dom)
  (t : dashboard) : option charts :=
  if (List.length (historicalData t) =? 0)%nat then None
  else
    let data := periodFilter tz now (trend_period d) (historicalData t) in
    Some {| trends := renderTrendsChart data;
            breakdown := renderBreakdownChart data |}.

(** ** History Loader *)

(** [dateStr] at offset [i].  [today] is a reading of the clock and [i]
    stays below 365, so the Date is within the range of time values and
    [toISOString] has a date to print. *)
Definition dateStr (tz : timezone) (today : Z) (i : Z) : Z :=
  isoDate (addLocalDays tz today (- i)).

(** One turn of the [for] loop, [historyData] being passed along. *)
Definition probe (tz : timezone) (net : network) (today : Z)
  (historyData : list Snapshot.t) (i : Z) : M world (list Snapshot.t) :=
  try_catch
    (resp <- fetchHistory net (dateStr tz today i) ;;
     if ok resp then
       data <- json resp ;;
       ret (historyData ++ [data])
     else ret historyData)
    (fun err => ret historyData).

(** [for (let i = from; i < from + count; i++)]. *)
Fixpoint forLoop {A} (body : A -> Z -> M world A) (from : Z) (count : nat)
  (acc : A) : M world A :=
  match count with
  | O => ret acc
  | S k => acc' <- body acc from ;; forLoop body (from + 1) k acc'
  end.

Definition byDate (a b : Snapshot.t) : Z :=
  parseDate (Snapshot.date a) - parseDate (Snapshot.date b).

(** [loadHistoricalData]; [now] is the time value of [new Date()].  The
    call of [updateCharts] at its end only draws. *)
Definition loadHistoricalData (tz : timezone) (net : network) (now : Z)
  : M world unit :=
  try_catch
    (let today := now in
     historyData <- forLoop (probe tz net today) 0 365 [] ;;
     if (0 <? List.length historyData)%nat then
       modify (onThis (fun t =>
         {| staleItems := staleItems t;
            filteredItems := filteredItems t;
            historicalData := JS.sort byDate historyData;
            currentSort := currentSort t |}))
     else ret tt)
    (fun error => ret tt).

(** ** Notions the statements use *)

(** What awaiting a [fetch] completes with. *)
Definition settle {B} (o : outcome B) : completion (response B) :=
  match o with
  | Rejected => Throw NetworkError
  | Response st p => Normal {| status := st; payload := p |}
  end.

(** A transport failure or a status outside 200..299. *)
Definition failed {B} (o : outcome B) : bool :=
  match o with
  | Rejected => true
  | Response st _ => negb ((200 <=? st) && (st <=? 299))
  end.

(** The items a listing yields: those of the records up to the first one
    whose [user] is null. *)
Fixpoint normalized (org repo : string) (items : list Raw.t)
  : list Item.t :=
  match items with
  | [] => []
  | item :: rest =>
      match Raw.user item with
      | None => []
      | Some u => itemOf org repo item u :: normalized org repo rest
      end
  end.

(** The items one repository adds to the store in a cycle. *)
Definition delivered (cfg : Config.t) (net : network) (org repo : string)
  : list Item.t :=
  match issuesOf net (issuesUrl org repo) (headers cfg) with
  | Response st (Json (Records items)) =>
      if (200 <=? st) && (st <=? 299) then normalized org repo items
      else []
  | _ => []
  end.

Definition withStaleItems (items : list Item.t) (t : dashboard)
  : dashboard :=
  {| staleItems := items;
     filteredItems := filteredItems t;
     historicalData := historicalData t;
     currentSort := currentSort t |}.

(** The items of a whole cycle over [repos], in the order of the list. *)
Definition deliveredAll (cfg : Config.t) (net : network)
  (repos : list Config.repository) : list Item.t :=
  flat_map (fun r => delivered cfg net (Config.org r) (Config.repo r)) repos.

Definition requestOf (cfg : Config.t) (r : Config.repository) : request :=
  GetIssues (issuesUrl (Config.org r) (Config.repo r)) (headers cfg).

Definition withRepositories (cfg : Config.t)
  (repos : list Config.repository) : Config.t :=
  {| Config.repositories := repos;
     Config.githubToken := Config.githubToken cfg |}.

(** [l1] is [l2] with some elements left out, the others in their order. *)
Inductive subsequence {A : Type} : list A -> list A -> Prop :=
| subsequence_nil : subsequence [] []
| subsequence_skip x l1 l2 : subsequence l1 l2 -> subsequence l1 (x :: l2)
| subsequence_keep x l1 l2 :
    subsequence l1 l2 -> subsequence (x :: l1) (x :: l2).

(** [this.filteredItems] after [applyFilters]. *)
Definition filteredBy (d : dom) (w : world) : list Item.t :=
  filteredItems (this (snd (applyFilters d w))).

(** The controls with one filter kept and the other two emptied. *)
Definition repoOnly (d : dom) : dom :=
  {| repo_filter := repo_filter d; type_filter := EmptyString;
     search_filter := EmptyString; trend_period := trend_period d |}.

Definition typeOnly (d : dom) : dom :=
  {| repo_filter := EmptyString; type_filter := type_filter d;
     search_filter := EmptyString; trend_period := trend_period d |}.

Definition searchOnly (d : dom) : dom :=
  {| repo_filter := EmptyString; type_filter := EmptyString;
     search_filter := search_filter d; trend_period := trend_period d |}.

Definition withSort (cur : sort_state) (t : dashboard) : dashboard :=
  {| staleItems := staleItems t;
     filteredItems := filteredItems t;
     historicalData := historicalData t;
     currentSort := cur |}.

(** [this.filteredItems] and [this.currentSort] after [sortBy]. *)
Definition sortedBy (fld : string) (w : world) : list Item.t :=
  filteredItems (this (snd (sortBy fld w))).

Definition sortAfter (fld : string) (w : world) : sort_state :=
  currentSort (this (snd (sortBy fld w))).

(** The offsets [from], [from + 1], ... of a loop of [count] turns. *)
Fixpoint offsets (from : Z) (count : nat) : list Z :=
  match count with
  | O => []
  | S k => from :: offsets (from + 1) k
  end.

(** What the history file of a date adds to [historyData]. *)
Definition loadedAt (net : network) (date : Z) : list Snapshot.t :=
  match historyOf net date with
  | Response st (Json data) =>
      if (200 <=? st) && (st <=? 299) then [data] else []
  | _ => []
  end.

(** The snapshots a run loads, in the order of the probes. *)
Definition loadedBy (tz : timezone) (net : network) (now : Z)
  : list Snapshot.t :=
  flat_map (fun i => loadedAt net (dateStr tz now i)) (offsets 0 365).

(** A file store in which the file of a date holds that date. *)
Definition coherent (net : network) : Prop :=
  forall date st data,
    historyOf net date = Response st (Json data) ->
    Snapshot.date data = date.

(** ** Sample data *)

Definition rawRecord (marker : JS.value) (title : string) (number : Z)
  (updated_at : Z) : Raw.t :=
  {| Raw.pull_request := marker;
     Raw.title := title;
     Raw.number := number;
     Raw.user := Some {| Raw.login := "octocat" |};
     Raw.updated_at := updated_at;
     Raw.labels := [{| Raw.name := "stale" |}];
     Raw.html_url := "https://github.com/acme";
     Raw.state := "open" |}.

Definition apiRecords : list Raw.t :=
  [ rawRecord Undefined "Crash on start" 10 1700000000000;
    rawRecord (Obj [("url", Str "https://api.github.com/pulls/2")])
      "Fix the crash" 2 1700000500000 ].

Definition webRecords : list Raw.t :=
  [ rawRecord Undefined "Broken link" 7 1700000900000 ].

(** [acme/api] and [acme/web] answer, [acme/down] answers 503, anything
    else is unreachable; there is no history file. *)
Definition sampleNet : network :=
  {| issuesOf := fun url _ =>
       if (url =? issuesUrl "acme" "api")%string
       then Response 200 (Json (Records apiRecords))
       else if (url =? issuesUrl "acme" "web")%string
       then Response 200 (Json (Records webRecords))
       else if (url =? issuesUrl "acme" "down")%string
       then Response 503 InvalidJson
       else Rejected;
     historyOf := fun _ => Response 404 InvalidJson |}.

Definition repoApi : Config.repository :=
  {| Config.org := "acme"; Config.repo := "api" |}.
Definition repoDown : Config.repository :=
  {| Config.org := "acme"; Config.repo := "down" |}.
Definition repoWeb : Config.repository :=
  {| Config.org := "acme"; Config.repo := "web" |}.

Definition sampleCfg : Config.t :=
  {| Config.repositories := [repoApi; repoDown; repoWeb];
     Config.githubToken := EmptyString |}.

Definition noFilters : dom :=
  {| repo_filter := EmptyString;
     type_filter := EmptyString;
     search_filter := EmptyString;
     trend_period := "all" |}.

Definition freshWorld : world := {| this := constructor; requests := [] |}.

(** The store after a load cycle on the sample network. *)
Definition loadedWorld : world :=
  snd (loadData sampleCfg sampleNet noFilters freshWorld).

Definition snapshotOf (date : Z) (repositories : option (list RepoStat.t))
  : Snapshot.t :=
  {| Snapshot.date := date;
     Snapshot.totals := None;
     Snapshot.repositories := repositories |}.

(** Noon UTC on day 100. *)
Definition noonOfDay100 : Z := MakeDate 100 43200000.

(** Snapshots dated 40 days, 10 days and 1 day before day 100. *)
Definition threeDays : list Snapshot.t :=
  [snapshotOf 60 None; snapshotOf 90 None; snapshotOf 99 None].

(** The stored items with the sort on [number], descending. *)
Definition numberSortedWorld : world :=
  snd (sortBy "number"
         (snd (loadData (withRepositories sampleCfg [repoApi]) sampleNet
                 noFilters freshWorld))).

Definition item2 : Item.t :=
  itemOf "acme" "api"
    (rawRecord (Obj [("url", Str "https://api.github.com/pulls/2")])
       "Fix the crash" 2 1700000500000)
    {| Raw.login := "octocat" |}.

Definition item10 : Item.t :=
  itemOf "acme" "api" (rawRecord Undefined "Crash on start" 10 1700000000000)
    {| Raw.login := "octocat" |}.

(** Snapshots dated 16 October, 5 November and 13 November 2024. *)
Definition autumn2024 : list Snapshot.t :=
  [snapshotOf 20012 None; snapshotOf 20032 None; snapshotOf 20040 None].

(** New York in 2024: UTC-5, and UTC-4 from 10 March 07:00 UTC to
    3 November 06:00 UTC.  A local time that a transition skips or repeats
    takes the offset in force before the transition. *)
Definition hour : Z := 3600000.

Definition summerStarts : Z := MakeDate 19792 (7 * hour).
Definition summerEnds : Z := MakeDate 20030 (6 * hour).

Definition newYork2024 : timezone :=
  {| LocalTZA := fun t isUTC =>
       if isUTC then
         if (summerStarts <=? t) && (t <? summerEnds)
         then -4 * hour else -5 * hour
       else
         if (summerStarts - 4 * hour <=? t) && (t <? summerEnds - 4 * hour)
         then -4 * hour else -5 * hour |}.

(** 16 November 2024 (day 20043), 00:30 UTC: 19:30 on the 15th in New
    York. *)
Definition nov15evening : Z := MakeDate 20043 1800000.

(** A store with the one file [data/history/2024-03-10.json] (day 19792). *)
Definition march10 : Snapshot.t := snapshotOf 19792 None.

Definition marchNet : network :=
  {| issuesOf := fun _ _ => Rejected;
     historyOf := fun date =>
       if date =? 19792 then Response 200 (Json march10)
       else Response 404 InvalidJson |}.

(** A store seen at noon UTC on day 100: files for days 100, 98 and 95, a
    file that is not JSON for day 99, no answer for day 97, a 500 for day
    96, and nothing else. *)
Definition patchyNet : network :=
  {| issuesOf := fun _ _ => Rejected;
     historyOf := fun date =>
       if date =? 100 then Response 200 (Json (snapshotOf 100 None))
       else if date =? 99 then Response 200 InvalidJson
       else if date =? 98 then Response 200 (Json (snapshotOf 98 None))
       else if date =? 97 then Rejected
       else if date =? 96 then Response 500 (Json (snapshotOf 96 None))
       else if date =? 95 then Response 200 (Json (snapshotOf 95 None))
       else Response 404 InvalidJson |}.

(** Three repositories, one of them with no stale item. *)
Definition threeRepos : list RepoStat.t :=
  [ {| RepoStat.repo := "a"; RepoStat.totalStale := 3 |};
    {| RepoStat.repo := "b"; RepoStat.totalStale := 0 |};
    {| RepoStat.repo := "c"; RepoStat.totalStale := 8 |} ].

(** Fifteen repositories with the counts 1 to 15, and one with none. *)
Definition fifteenRepos : list RepoStat.t :=
  {| RepoStat.repo := "idle"; RepoStat.totalStale := 0 |}
  :: map (fun n => {| RepoStat.repo := Number_toString (Z.of_N n);
                      RepoStat.totalStale := n |})
       [4; 11; 1; 15; 8; 2; 13; 6; 9; 3; 14; 7; 12; 5; 10]%N.

(** A listing whose second record has a null [user]. *)
Definition ghostRecords : list Raw.t :=
  [ rawRecord Undefined "First" 1 1700000000000;
    {| Raw.pull_request := Undefined;
       Raw.title := "Second";
       Raw.number := 2;
       Raw.user := None;
       Raw.updated_at := 1700000000000;
       Raw.labels := [];
       Raw.html_url := "https://github.com/acme";
       Raw.state := "open" |};
    rawRecord Undefined "Third" 3 1700000000000 ].

Definition ghostNet : network :=
  {| issuesOf := fun _ _ => Response 200 (Json (Records ghostRecords));
     historyOf := fun _ => Rejected |}.

(** ** The rest of the class *)

(** *** Aggregation Store: [updateStats], [populateRepoFilter] *)

(** The values of [new Set(arr)], in the order they are iterated in: each
    distinct value once, at the place of its first occurrence. *)
Fixpoint newSet (arr : list string) : list string :=
  match arr with
  | [] => []
  | x :: rest => x :: filter (fun y => negb (y =? x)%string) (newSet rest)
  end.

(** The four numbers [updateStats] writes to the page. *)
Module Stats.
Record t : Type := {
  totalStale : nat;
  totalIssues : nat;
  totalPRs : nat;
  totalRepos : nat
}.
End Stats.

Definition updateStats (t : dashboard) : Stats.t :=
  {| Stats.totalStale := List.length (staleItems t);
     Stats.totalIssues :=
       List.length
         (filter (fun item => (Item.type item =? "issue")%string)
            (staleItems t));
     Stats.totalPRs :=
       List.length
         (filter (fun item => (Item.type item =? "pr")%string)
            (staleItems t));
     Stats.totalRepos :=
       List.length (newSet (map Item.repo (staleItems t))) |}.

(** The comparison [arr.sort()] makes when it is given no comparator: the
    elements as strings, by code units. *)
Definition defaultCompare (x y : string) : Z :=
  if str_lt x y then -1 else if str_lt y x then 1 else 0.

(** An [option] element of the repository [select]. *)
Module SelectOption.
Record t : Type := { value : string; textContent : string }.
End SelectOption.

(** The options [populateRepoFilter] leaves in [repo-filter]. *)
Definition populateRepoFilter (t : dashboard) : list SelectOption.t :=
  let repos :=
    JS.sort defaultCompare (newSet (map Item.repo (staleItems t))) in
  {| SelectOption.value := EmptyString;
     SelectOption.textContent := "All Repositories" |}
  :: map (fun repo => {| SelectOption.value := repo;
                         SelectOption.textContent := repo |}) repos.

(** *** Table cells: [truncate], [formatDate] *)

(** [truncate(str, maxLength)]; the characters of a string are its
    bytes. *)
Definition truncate (str : string) (maxLength : nat) : string :=
  if (String.length str <=? maxLength)%nat then str
  else (substring 0 maxLength str ++ "...")%string.

(** [formatDate(date)]; [now] is the time value of [new Date()]. *)
Definition formatDate (now : Z) (date : Date) : string :=
  let diffMs := now - getTime date in
  let diffDays := diffMs / (1000 * 60 * 60 * 24) in
  if diffDays =? 0 then "Today"
  else if diffDays =? 1 then "Yesterday"
  else if diffDays <? 7
  then (Number_toString diffDays ++ " days ago")%string
  else if diffDays <? 30
  then (Number_toString (diffDays / 7) ++ " weeks ago")%string
  else if diffDays <? 365
  then (Number_toString (diffDays / 30) ++ " months ago")%string
  else (Number_toString (diffDays / 365) ++ " years ago")%string.

(** *** The colours of the breakdown bars *)

Definition colors : list string :=
  [ "#33b5e5"; "#73bf69"; "#ff9830"; "#e02f44"; "#a77ddc";
    "#5bc0de"; "#f0ad4e"; "#d9534f"; "#5cb85c"; "#337ab7" ].

(** [colors.slice(0, repos.length)], the [backgroundColor] of the chart
    [renderBreakdownChart] builds; [None] when it builds none. *)
Definition breakdownColors (data : list Snapshot.t) : option (list string) :=
  match latestOf data with
  | None => None
  | Some latest =>
      match Snapshot.repositories latest with
      | None => None
      | Some repositories =>
          Some (slice0 (List.length (topRepos repositories)) colors)
      end
  end.

(** *** [setupEventListeners]

    The events the listeners are registered for, and what each listener
    calls.  A click on a sortable header carries its [data-sort]
    attribute.  The listeners of the three filter controls, of the clear
    button and of the headers run synchronously; the refresh is taken to
    have finished before the next event is handled.  [updateCharts] only
    draws. *)
Inductive event : Type :=
| ClickRefresh
| ChangeRepoFilter
| ChangeTypeFilter
| InputSearchFilter
| ClickClearFilters
| ClickSortable (sort : string)
| ChangeTrendPeriod.

(** The listener of an event, [d] being the controls as it finds them. *)
Definition listener (cfg : Config.t) (net : network) (d : dom) (e : event)
  : M world unit :=
  match e with
  | ClickRefresh => loadData cfg net d
  | ChangeRepoFilter | ChangeTypeFilter | InputSearchFilter =>
      applyFilters d
  | ClickClearFilters => clearFilters d
  | ClickSortable fld => sortBy fld
  | ChangeTrendPeriod => ret tt
  end.

(** A session: events handled one after another. *)
Definition session (cfg : Config.t) (net : network)
  (inputs : list (dom * event)) : M world unit :=
  forEach (fun input => listener cfg net (fst input) (snd input)) inputs.

(** ** More notions the statements use *)

(** [a] and [b] tie under the comparator of [fld], whichever way the
    sort goes. *)
Definition tied (fld : string) (a b : Item.t) : bool :=
  compareItems {| field := fld; ascending := true |} fld a b =? 0.

(** No two items of the list tie. *)
Fixpoint noTies (fld : string) (l : list Item.t) : bool :=
  match l with
  | [] => true
  | a :: rest => forallb (fun b => negb (tied fld a b)) rest
                 && noTies fld rest
  end.

(** The table after a second and a third click on the same header. *)
Definition sortedTwice (fld : string) (w : world) : list Item.t :=
  sortedBy fld (snd (sortBy fld w)).

Definition sortedThrice (fld : string) (w : world) : list Item.t :=
  sortedBy fld (snd (sortBy fld (snd (sortBy fld w)))).

(** The table shows items of the store only: [this.filteredItems] is a
    rearrangement of a subsequence of [this.staleItems]. *)
Definition tableFromStore (t : dashboard) : Prop :=
  exists sub,
    subsequence sub (staleItems t) /\ Permutation (filteredItems t) sub.

(** An item as the Source Adapter builds them for a configured
    repository. *)
Definition wellFormed (cfg : Config.t) (item : Item.t) : Prop :=
  (Item.type item = "pr" \/ Item.type item = "issue")
  /\ Item.repo item = (Item.org item ++ "/" ++ Item.repoName item)%string
  /\ In {| Config.org := Item.org item; Config.repo := Item.repoName item |}
       (Config.repositories cfg).

(** The offsets of the zone at any two local times differ by less than a
    day. *)
Definition boundedShifts (tz : timezone) : Prop :=
  forall a b,
    Z.abs (LocalTZA tz a false - LocalTZA tz b false) < msPerDay.

(** An item with every field empty. *)
Definition blankItem : Item.t :=
  {| Item.type := EmptyString; Item.repo := EmptyString;
     Item.org := EmptyString; Item.repoName := EmptyString;
     Item.title := EmptyString; Item.number := 0;
     Item.author := EmptyString; Item.updated := {| getTime := 0 |};
     Item.labels := []; Item.url := EmptyString;
     Item.state := EmptyString |}.

(** A dashboard with the three sample snapshots and no item. *)
Definition historyOnly : dashboard :=
  {| staleItems := []; filteredItems := [];
     historicalData := threeDays;
     currentSort := currentSort constructor |}.

(** ** Proof automation *)

(** Evaluates [digitValue] on the literal characters of the goal. *)
Ltac eval_digit :=
  repeat match goal with
         | |- context [digitValue ?r (Ascii ?a ?b ?c ?d ?e ?f ?g ?h)] =>
             let v := eval vm_compute in
                        (digitValue r (Ascii a b c d e f g h)) in
             change (digitValue r (Ascii a b c d e f g h)) with v
         end; cbv iota beta.

(* ================================================================== *)
(** * Part II: properties *)
(* ================================================================== *)

(** ** The monad *)

Lemma bind_run {S A B} (m : M S A) (k : A -> M S B) (s : S) :
  bind m k s
  = match m s with
    | (Normal a, s') => k a s'
    | (Throw e, s') => (Throw e, s')
    end.
Proof. reflexivity. Qed.

Lemma try_catch_run {S A} (m : M S A) (h : error -> M S A) (s : S) :
  try_catch m h s
  = match m s with
    | (Normal a, s') => (Normal a, s')
    | (Throw e, s') => h e s'
    end.
Proof. reflexivity. Qed.

(** ** The network *)

Lemma fetchIssues_run (net : network) (url : string)
  (authorization : option string) (w : world) :
  fetchIssues net url authorization w
  = (settle (issuesOf net url authorization),
     logRequest (GetIssues url authorization) w).
Proof.
  unfold fetchIssues. rewrite bind_run. unfold modify, await, settle.
  now destruct (issuesOf net url authorization).
Qed.

Lemma fetchHistory_run (net : network) (date : Z) (w : world) :
  fetchHistory net date w
  = (settle (historyOf net date), logRequest (GetHistory date) w).
Proof.
  unfold fetchHistory. rewrite bind_run. unfold modify, await, settle.
  now destruct (historyOf net date).
Qed.

(** ** Source Adapter *)

Lemma issues_loop_run (org repo : string) (items : list Raw.t) (w : world) :
  exists c,
    forEach (fun item => it <- normalize org repo item ;; push_staleItems it)
      items w
    = (c, {| this := withStaleItems
                       (staleItems (this w) ++ normalized org repo items)
                       (this w);
             requests := requests w |}).
Proof.
  set (f := fun item => it <- normalize org repo item ;; push_staleItems it).
  revert w; induction items as [|item rest IH]; intros [t rq]; simpl.
  - exists (Normal tt). unfold ret, withStaleItems; simpl.
    rewrite app_nil_r. now destruct t.
  - rewrite bind_run. unfold f at 1. rewrite bind_run. unfold normalize.
    destruct (Raw.user item) as [u|].
    + unfold ret at 1. unfold push_staleItems, modify, onThis; simpl.
      destruct (IH {| this := withStaleItems
                                (staleItems t ++ [itemOf org repo item u]) t;
                      requests := rq |}) as [c Hc].
      exists c. unfold withStaleItems in *; simpl in *.
      rewrite Hc. now rewrite <- app_assoc.
    + exists (Throw TypeError). unfold throw, withStaleItems; simpl.
      rewrite app_nil_r. now destruct t.
Qed.

(** What one call does to the store: it returns normally, appends the
    repository's items to [this.staleItems] and logs one request. *)
Lemma fetchStaleItems_run (cfg : Config.t) (net : network)
  (org repo : string) (w : world) :
  fetchStaleItems cfg net org repo w
  = (Normal tt,
     {| this := withStaleItems
                  (staleItems (this w) ++ delivered cfg net org repo)
                  (this w);
        requests := requests w
                      ++ [GetIssues (issuesUrl org repo) (headers cfg)] |}).
Proof.
  unfold fetchStaleItems, delivered.
  rewrite try_catch_run, bind_run, fetchIssues_run.
  destruct (issuesOf net (issuesUrl org repo) (headers cfg))
    as [|st [|[|items]]]; unfold settle, ok; cbn [status payload];
    try (destruct ((200 <=? st) && (st <=? 299)); cbn [negb]);
    rewrite ?bind_run; unfold json, throw, ret, issues_forEach, logRequest,
      withStaleItems; cbn [payload this requests];
    rewrite ?app_nil_r; try (destruct w as [[] ?]; reflexivity).
  match goal with
  | |- context [forEach ?f items ?w0] =>
      destruct (issues_loop_run org repo items w0) as [c Hc]; rewrite Hc
  end.
  now destruct c as [[]|e].
Qed.

Lemma delivered_failed (cfg : Config.t) (net : network) (org repo : string) :
  failed (issuesOf net (issuesUrl org repo) (headers cfg)) = true ->
  delivered cfg net org repo = [].
Proof.
  unfold failed, delivered.
  destruct (issuesOf net (issuesUrl org repo) (headers cfg))
    as [|st [|[|items]]]; try reflexivity.
  intros H. apply negb_true_iff in H. now rewrite H.
Qed.

Lemma repos_loop_run (cfg : Config.t) (net : network)
  (repos : list Config.repository) (w : world) :
  forEach (fun r => fetchStaleItems cfg net (Config.org r) (Config.repo r))
    repos w
  = (Normal tt,
     {| this := withStaleItems
                  (staleItems (this w) ++ deliveredAll cfg net repos)
                  (this w);
        requests := requests w ++ map (requestOf cfg) repos |}).
Proof.
  revert w; induction repos as [|r repos IH]; intros w; simpl.
  - unfold ret, withStaleItems. rewrite !app_nil_r. now destruct w as [[] ?].
  - rewrite bind_run, fetchStaleItems_run, IH.
    unfold withStaleItems, requestOf; simpl.
    now rewrite <- !app_assoc.
Qed.

Lemma loadData_run (cfg : Config.t) (net : network) (d : dom) (w : world) :
  loadData cfg net d w
  = (Normal tt,
     {| this :=
          {| staleItems := deliveredAll cfg net (Config.repositories cfg);
             filteredItems :=
               filter (keepItem d)
                 (deliveredAll cfg net (Config.repositories cfg));
             historicalData := historicalData (this w);
             currentSort := currentSort (this w) |};
        requests := requests w
                      ++ map (requestOf cfg) (Config.repositories cfg) |}).
Proof.
  unfold loadData. rewrite try_catch_run, bind_run.
  unfold modify at 1. rewrite bind_run, repos_loop_run.
  unfold applyFilters, modify, onThis, withStaleItems; simpl.
  reflexivity.
Qed.

Lemma deliveredAll_withRepositories (cfg : Config.t) (net : network)
  (repos repos' : list Config.repository) :
  deliveredAll (withRepositories cfg repos') net repos
  = deliveredAll cfg net repos.
Proof. reflexivity. Qed.

Lemma deliveredAll_skip (cfg : Config.t) (net : network)
  (before after : list Config.repository) (r : Config.repository) :
  failed (issuesOf net (issuesUrl (Config.org r) (Config.repo r))
            (headers cfg)) = true ->
  deliveredAll cfg net (before ++ r :: after)
  = deliveredAll cfg net (before ++ after).
Proof.
  intros H. unfold deliveredAll. rewrite !flat_map_app. simpl.
  now rewrite (delivered_failed _ _ _ _ H).
Qed.

(** C1. A call of [fetchStaleItems] always returns normally to its caller
    and only ever appends to [this.staleItems]; when the fetch is rejected
    or the status is not 2xx it leaves [this] as it was; and a load cycle
    in which one repository fails that way returns normally with the very
    store it would have without that repository in the list, so the items
    of the other repositories are all there. *)
Theorem fetch_failure_is_isolated (cfg : Config.t) (net : network) :
  (forall org repo w, exists w',
      fetchStaleItems cfg net org repo w = (Normal tt, w')
      /\ exists added,
           staleItems (this w') = staleItems (this w) ++ added)
  /\ (forall org repo w,
        failed (issuesOf net (issuesUrl org repo) (headers cfg)) = true ->
        this (snd (fetchStaleItems cfg net org repo w)) = this w)
  /\ (forall d before r after w,
        failed (issuesOf net (issuesUrl (Config.org r) (Config.repo r))
                  (headers cfg)) = true ->
        fst (loadData (withRepositories cfg (before ++ r :: after)) net d w)
        = Normal tt
        /\ this (snd (loadData (withRepositories cfg (before ++ r :: after))
                        net d w))
           = this (snd (loadData (withRepositories cfg (before ++ after))
                          net d w))).
Proof.
  split; [|split].
  - intros org repo w. rewrite fetchStaleItems_run.
    eexists; split; [reflexivity|]. simpl. now eexists.
  - intros org repo w H. rewrite fetchStaleItems_run; simpl.
    rewrite (delivered_failed _ _ _ _ H), app_nil_r.
    unfold withStaleItems. now destruct w as [[] ?].
  - intros d before r after w H. rewrite !loadData_run; simpl.
    split; [reflexivity|].
    rewrite !deliveredAll_withRepositories.
    now rewrite (deliveredAll_skip cfg net before after r H).
Qed.

Lemma fetch_failure_is_isolated_witness :
  failed (issuesOf sampleNet (issuesUrl "acme" "down") (headers sampleCfg))
  = true
  /\ this (snd (loadData
                  (withRepositories sampleCfg
                     ([repoApi] ++ repoDown :: [repoWeb]))
                  sampleNet noFilters freshWorld))
     = this (snd (loadData
                    (withRepositories sampleCfg ([repoApi] ++ [repoWeb]))
                    sampleNet noFilters freshWorld))
  /\ map Item.number (staleItems (this loadedWorld)) = [10; 2; 7].
Proof.
  split; [reflexivity|]. split; [|reflexivity].
  apply (proj2 (proj2 (proj2 (fetch_failure_is_isolated sampleCfg sampleNet))
                  noFilters [repoApi] repoDown [repoWeb] freshWorld
                  eq_refl)).
Defined.

(** A record with a null [user] makes the callback throw: the call still
    returns normally, with the items pushed before the throw. *)
Example fetch_survives_null_user :
  fst (fetchStaleItems sampleCfg ghostNet "acme" "api" freshWorld)
  = Normal tt
  /\ map Item.title
       (staleItems
          (this (snd (fetchStaleItems sampleCfg ghostNet "acme" "api"
                        freshWorld))))
     = ["First"].
Proof. split; reflexivity. Qed.

(** ** [parseInt] on the decimal rendering of an integer *)

Lemma parseDigits_acc (d : Decimal.uint) (acc : positive) (seen : bool) :
  seen = true \/ d <> Decimal.Nil ->
  parseDigits 10 seen (Z.pos acc) (NilEmpty.string_of_uint d)
  = Some (Z.pos (Pos.of_uint_acc d acc)).
Proof.
  revert acc seen; induction d; intros acc seen Hs.
  1: destruct Hs as [->|H]; [reflexivity|congruence].
  all: cbn -[Z.mul Z.add Pos.mul Pos.add digitValue]; eval_digit.
  all: match goal with
       | |- parseDigits _ _ ?a _ = Some (Z.pos (Pos.of_uint_acc _ ?b)) =>
           replace a with (Z.pos b) by lia
       end.
  all: apply IHd; now left.
Qed.

Lemma parseDigits_zero (d : Decimal.uint) (seen : bool) :
  seen = true \/ d <> Decimal.Nil ->
  parseDigits 10 seen 0 (NilEmpty.string_of_uint d)
  = Some (Z.of_N (Pos.of_uint d)).
Proof.
  revert seen; induction d; intros seen Hs.
  1: destruct Hs as [->|H]; [reflexivity|congruence].
  1: cbn -[Z.mul Z.add digitValue]; eval_digit; apply IHd; now left.
  all: cbn -[Z.mul Z.add Pos.mul Pos.add digitValue]; eval_digit.
  all: match goal with
       | |- parseDigits _ _ ?a _ = Some (Z.pos (Pos.of_uint_acc _ ?b)) =>
           replace a with (Z.pos b) by lia
       end.
  all: apply parseDigits_acc; now left.
Qed.

Lemma to_uint_nonnil (p : positive) : Pos.to_uint p <> Decimal.Nil.
Proof.
  intros H. pose proof (DecimalPos.Unsigned.of_to p) as E.
  rewrite H in E. discriminate.
Qed.

(** No decimal rendering starts with white space, a sign or [0x]. *)
Lemma parseInt_digits (d : Decimal.uint) :
  d <> Decimal.Nil ->
  parseInt (NilEmpty.string_of_uint d)
  = parseDigits 10 false 0 (NilEmpty.string_of_uint d).
Proof.
  intros Hd. unfold parseInt.
  destruct d as [|d|d|d|d|d|d|d|d|d|d]; try congruence;
    cbn -[parseDigits Z.mul];
    try (match goal with
         | |- match parseDigits _ _ _ ?s with _ => _ end = _ =>
             destruct (parseDigits 10 false 0 s) as [n|];
             [f_equal; lia|reflexivity]
         end).
  destruct d as [|d|d|d|d|d|d|d|d|d|d];
    cbn -[parseDigits Z.mul];
    match goal with
    | |- match parseDigits _ _ _ ?s with _ => _ end = _ =>
        destruct (parseDigits 10 false 0 s) as [n|];
        [f_equal; lia|reflexivity]
    end.
Qed.

Lemma string_of_uint_nonnil (d : Decimal.uint) :
  d <> Decimal.Nil ->
  NilZero.string_of_uint d = NilEmpty.string_of_uint d.
Proof. destruct d; congruence || reflexivity. Qed.

Lemma parseInt_minus (d : Decimal.uint) :
  d <> Decimal.Nil ->
  parseInt (String "-" (NilEmpty.string_of_uint d))
  = option_map Z.opp (parseDigits 10 false 0 (NilEmpty.string_of_uint d)).
Proof.
  intros Hd. unfold parseInt.
  destruct d as [|d|d|d|d|d|d|d|d|d|d]; try congruence;
    cbn -[parseDigits Z.mul];
    try (match goal with
         | |- match parseDigits _ _ _ ?s with _ => _ end = _ =>
             destruct (parseDigits 10 false 0 s) as [n|];
             [cbn; f_equal; lia|reflexivity]
         end).
  destruct d as [|d|d|d|d|d|d|d|d|d|d];
    cbn -[parseDigits Z.mul];
    match goal with
    | |- match parseDigits _ _ _ ?s with _ => _ end = _ =>
        destruct (parseDigits 10 false 0 s) as [n|];
        [cbn; f_equal; lia|reflexivity]
    end.
Qed.

(** [parseInt] gives back the integer whose rendering it reads. *)
Lemma parseInt_Number_toString (n : Z) :
  parseInt (Number_toString n) = Some n.
Proof.
  unfold Number_toString, Z.to_int.
  destruct n as [|p|p]; [reflexivity| |];
    pose proof (to_uint_nonnil p) as Hp;
    unfold NilZero.string_of_int; rewrite string_of_uint_nonnil by exact Hp.
  - rewrite parseInt_digits, parseDigits_zero by (exact Hp || now right).
    now rewrite DecimalPos.Unsigned.of_to.
  - rewrite parseInt_minus, parseDigits_zero by (exact Hp || now right).
    now rewrite DecimalPos.Unsigned.of_to.
Qed.

(** ** [Array.prototype.sort] *)

Section SortFacts.
Context {A : Type} (comparefn : A -> A -> Z).

Lemma insert_perm (x : A) (l : list A) :
  Permutation (JS.insert comparefn x l) (x :: l).
Proof.
  induction l as [|y l IH]; simpl; [reflexivity|].
  destruct (0 <? comparefn x y); [|reflexivity].
  rewrite IH. apply perm_swap.
Qed.

Lemma sort_perm (l : list A) : Permutation (JS.sort comparefn l) l.
Proof.
  induction l as [|x l IH]; simpl; [reflexivity|].
  rewrite insert_perm. now constructor.
Qed.

Lemma sort_length (l : list A) :
  List.length (JS.sort comparefn l) = List.length l.
Proof. apply Permutation_length, sort_perm. Qed.

Lemma sort_In (x : A) (l : list A) : In x (JS.sort comparefn l) <-> In x l.
Proof.
  split; apply Permutation_in; [|symmetry]; apply sort_perm.
Qed.

(** An element that is inserted only passes elements that compare less:
    a selection [keep] none of whose members passes another one comes out
    of the insertion in the order it went in. *)
Lemma insert_filter (keep : A -> bool) (x : A) (l : list A) :
  (forall y, keep x = true -> keep y = true -> comparefn x y <= 0) ->
  filter keep (JS.insert comparefn x l) = filter keep (x :: l).
Proof.
  intros H. induction l as [|y l IH]; [reflexivity|].
  simpl. destruct (0 <? comparefn x y) eqn:E; [|reflexivity].
  apply Z.ltb_lt in E. simpl. simpl in IH. rewrite IH.
  destruct (keep x) eqn:Ex, (keep y) eqn:Ey; try reflexivity.
  specialize (H y eq_refl Ey). lia.
Qed.

Lemma sort_filter (keep : A -> bool) (l : list A) :
  (forall x y, keep x = true -> keep y = true -> comparefn x y <= 0) ->
  filter keep (JS.sort comparefn l) = filter keep l.
Proof.
  intros H. induction l as [|x l IH]; [reflexivity|].
  simpl. rewrite insert_filter by (intros; now apply H).
  simpl. now rewrite IH.
Qed.

(** With a comparator that is total and transitive the result is in order. *)
Hypothesis total : forall x y, 0 < comparefn x y -> comparefn y x <= 0.
Hypothesis trans :
  forall x y z, comparefn x y <= 0 -> comparefn y z <= 0 ->
                comparefn x z <= 0.

Lemma insert_sorted (x : A) (l : list A) :
  StronglySorted (fun a b => comparefn a b <= 0) l ->
  StronglySorted (fun a b => comparefn a b <= 0) (JS.insert comparefn x l).
Proof.
  induction 1 as [|y l Hl IH Hy]; simpl.
  - repeat constructor.
  - destruct (0 <? comparefn x y) eqn:E.
    + apply Z.ltb_lt in E. constructor; [exact IH|].
      apply Forall_forall. intros z Hz.
      apply (Permutation_in _ (insert_perm x l)) in Hz.
      destruct Hz as [<-|Hz]; [now apply total|].
      rewrite Forall_forall in Hy. now apply Hy.
    + apply Z.ltb_ge in E. constructor; [now constructor|].
      constructor; [exact E|].
      eapply Forall_impl; [|exact Hy]. intros z Hz. now apply trans with y.
Qed.

Lemma sort_sorted (l : list A) :
  StronglySorted (fun a b => comparefn a b <= 0) (JS.sort comparefn l).
Proof.
  induction l as [|x l IH]; simpl; [constructor|].
  now apply insert_sorted.
Qed.

End SortFacts.

(** *** The stable ordering is unique

    With a consistent comparator (the sign of [comparefn x y] is opposite
    to that of [comparefn y x], and [<= 0] is transitive) there is one
    arrangement that is in order and keeps tied elements in their order:
    the insertion sort above computes what any stable sort computes. *)
Section SortUnique.
Context {A : Type} (comparefn : A -> A -> Z).
Hypothesis anti : forall x y, comparefn x y < 0 <-> 0 < comparefn y x.
Hypothesis trans :
  forall x y z, comparefn x y <= 0 -> comparefn y z <= 0 ->
                comparefn x z <= 0.

Lemma tie_refl (x : A) : (comparefn x x =? 0) = true.
Proof.
  apply Z.eqb_eq. pose proof (anti x x). lia.
Qed.

Lemma stable_sorted_unique (l1 l2 : list A) :
  StronglySorted (fun a b => comparefn a b <= 0) l1 ->
  StronglySorted (fun a b => comparefn a b <= 0) l2 ->
  (forall x, filter (fun y => comparefn x y =? 0) l1
             = filter (fun y => comparefn x y =? 0) l2) ->
  l1 = l2.
Proof.
  intros S1. revert l2. induction S1 as [|a l1 S1 IH Ha]; intros l2 S2 F.
  - destruct l2 as [|b l2]; [reflexivity|].
    specialize (F b). simpl in F. rewrite tie_refl in F. discriminate.
  - destruct l2 as [|b l2].
    { specialize (F a). simpl in F. rewrite tie_refl in F. discriminate. }
    inversion S2 as [|? ? S2' Hb]; subst.
    rewrite Forall_forall in Ha, Hb.
    assert (Hba : comparefn b a <= 0).
    { pose proof (F a) as Fa. simpl in Fa. rewrite tie_refl in Fa.
      assert (I : In a (filter (fun y => comparefn a y =? 0) (b :: l2)))
        by (simpl; rewrite <- Fa; now left).
      apply filter_In in I. destruct I as [[->|I] _].
      - pose proof (anti a a). lia.
      - now apply Hb. }
    assert (Hab : comparefn a b <= 0).
    { pose proof (F b) as Fb. simpl in Fb. rewrite (tie_refl b) in Fb.
      assert (I : In b (filter (fun y => comparefn b y =? 0) (a :: l1)))
        by (simpl; rewrite Fb; now left).
      apply filter_In in I. destruct I as [[->|I] _].
      - pose proof (anti b b). lia.
      - now apply Ha. }
    assert (T : (comparefn a b =? 0) = true).
    { apply Z.eqb_eq. pose proof (anti a b). lia. }
    assert (E : a = b).
    { pose proof (F a) as Fa. simpl in Fa. rewrite tie_refl, T in Fa.
      congruence. }
    subst b. f_equal. apply IH; [exact S2'|].
    intros x. specialize (F x). simpl in F.
    destruct (comparefn x a =? 0); congruence.
Qed.

(** Any arrangement of [l] that is in order and stable is the result of
    [JS.sort]. *)
Lemma sort_unique (l l' : list A) :
  StronglySorted (fun a b => comparefn a b <= 0) l' ->
  (forall x, filter (fun y => comparefn x y =? 0) l'
             = filter (fun y => comparefn x y =? 0) l) ->
  l' = JS.sort comparefn l.
Proof.
  intros S F. apply stable_sorted_unique; [exact S| |].
  - apply sort_sorted; [|exact trans].
    intros x y H. apply anti in H. lia.
  - intros x. rewrite F. symmetry. apply sort_filter.
    intros y z Hy Hz. apply Z.eqb_eq in Hy, Hz.
    assert (comparefn y x <= 0) by (pose proof (anti x y); lia).
    apply trans with x; lia.
Qed.

End SortUnique.

(** ** Filter/Sort Engine *)

Lemma subsequence_filter {A} (keep : A -> bool) (l : list A) :
  subsequence (filter keep l) l.
Proof.
  induction l as [|x l IH]; simpl; [constructor|].
  destruct (keep x); now constructor.
Qed.

Lemma toLowerCase_empty (s : string) :
  toLowerCase s = EmptyString <-> s = EmptyString.
Proof. destruct s; simpl; split; congruence. Qed.

Lemma nonEmpty_toLowerCase (s : string) :
  nonEmpty (toLowerCase s) = nonEmpty s.
Proof. now destruct s. Qed.

Lemma nonEmpty_false (s : string) : nonEmpty s = false <-> s = EmptyString.
Proof.
  unfold nonEmpty. rewrite negb_false_iff. apply String.eqb_eq.
Qed.

Lemma prefix_append (sub s : string) :
  String.prefix sub s = true <-> exists post, s = (sub ++ post)%string.
Proof.
  revert s; induction sub as [|c sub IH]; intros s.
  - split; [intros _; now exists s|]. intros _. now destruct s.
  - destruct s as [|c' s]; simpl.
    + split; [discriminate|]. intros [post H]. discriminate.
    + destruct (Ascii.ascii_dec c c') as [->|Hc].
      * rewrite IH. split; intros [post H]; exists post; congruence.
      * split; [discriminate|]. intros [post H]. congruence.
Qed.

(** [includes] is the test for a substring. *)
Lemma includes_spec (s sub : string) :
  includes s sub = true
  <-> exists pre post, s = (pre ++ sub ++ post)%string.
Proof.
  induction s as [|c s IH]; cbn [includes].
  - destruct (String.prefix sub EmptyString) eqn:E.
    + split; [|reflexivity]. intros _.
      apply prefix_append in E. destruct E as [post E].
      now exists EmptyString, post.
    + split; [discriminate|]. intros [pre [post H]].
      destruct pre; [|discriminate]. simpl in H.
      assert (String.prefix sub EmptyString = true)
        by (apply prefix_append; eauto).
      congruence.
  - destruct (String.prefix sub (String c s)) eqn:E.
    + split; [|reflexivity]. intros _.
      apply prefix_append in E. destruct E as [post E].
      now exists EmptyString, post.
    + rewrite IH. split.
      * intros [pre [post H]]. exists (String c pre), post. simpl. congruence.
      * intros [pre [post H]]. destruct pre as [|c' pre].
        -- simpl in H.
           assert (String.prefix sub (String c s) = true)
             by (apply prefix_append; eauto).
           congruence.
        -- simpl in H. exists pre, post. congruence.
Qed.

Lemma applyFilters_run (d : dom) (w : world) :
  applyFilters d w
  = (Normal tt,
     {| this := {| staleItems := staleItems (this w);
                   filteredItems := filter (keepItem d) (staleItems (this w));
                   historicalData := historicalData (this w);
                   currentSort := currentSort (this w) |};
        requests := requests w |}).
Proof. reflexivity. Qed.

Lemma keepItem_split (d : dom) (it : Item.t) :
  keepItem d it
  = keepItem (repoOnly d) it && keepItem (typeOnly d) it
    && keepItem (searchOnly d) it.
Proof.
  unfold keepItem, repoOnly, typeOnly, searchOnly; simpl.
  destruct (nonEmpty (repo_filter d) && _); simpl; [reflexivity|].
  destruct (nonEmpty (type_filter d) && _); simpl; [reflexivity|].
  destruct (nonEmpty (toLowerCase (search_filter d)) && _); reflexivity.
Qed.

Lemma filter_filter {A} (f g : A -> bool) (l : list A) :
  filter f (filter g l) = filter (fun x => g x && f x) l.
Proof.
  induction l as [|x l IH]; simpl; [reflexivity|].
  destruct (g x); simpl; [destruct (f x)|]; now rewrite IH.
Qed.

Lemma keepItem_repoOnly (d : dom) (it : Item.t) :
  keepItem (repoOnly d) it = true
  <-> repo_filter d = EmptyString \/ Item.repo it = repo_filter d.
Proof.
  unfold keepItem, repoOnly, nonEmpty; simpl.
  destruct (String.eqb_spec (repo_filter d) EmptyString); simpl; [tauto|].
  destruct (String.eqb_spec (Item.repo it) (repo_filter d)); simpl;
    split; try tauto; try discriminate; try (intros [?|?]; contradiction).
Qed.

Lemma keepItem_typeOnly (d : dom) (it : Item.t) :
  keepItem (typeOnly d) it = true
  <-> type_filter d = EmptyString \/ Item.type it = type_filter d.
Proof.
  unfold keepItem, typeOnly, nonEmpty; simpl.
  destruct (String.eqb_spec (type_filter d) EmptyString); simpl; [tauto|].
  destruct (String.eqb_spec (Item.type it) (type_filter d)); simpl;
    split; try tauto; try discriminate; try (intros [?|?]; contradiction).
Qed.

Lemma keepItem_searchOnly (d : dom) (it : Item.t) :
  keepItem (searchOnly d) it = true
  <-> search_filter d = EmptyString
      \/ exists pre post,
           toLowerCase (Item.title it)
           = (pre ++ toLowerCase (search_filter d) ++ post)%string.
Proof.
  rewrite <- includes_spec.
  unfold keepItem, searchOnly; simpl. rewrite nonEmpty_toLowerCase.
  unfold nonEmpty.
  destruct (String.eqb_spec (search_filter d) EmptyString); simpl; [tauto|].
  destruct (includes _ _); simpl; split; try tauto; try discriminate;
    try (intros [?|?]; [contradiction|discriminate]).
Qed.

(** C5. The result of [applyFilters] is the intersection of the three
    results obtained with one filter alone, as a set and as a sequence;
    the repo filter alone keeps the items of that repo, the type filter
    alone those of that type, the search filter alone those whose title
    holds the search text, case ignored; an empty control keeps every
    item; with the three controls empty the result is the whole of
    [this.staleItems], in its order. *)
Theorem filters_are_conjoined (d : dom) (w : world) :
  let items := staleItems (this w) in
  (forall it, In it (filteredBy d w)
              <-> In it (filteredBy (repoOnly d) w)
                  /\ In it (filteredBy (typeOnly d) w)
                  /\ In it (filteredBy (searchOnly d) w))
  /\ filteredBy d w
     = filter (keepItem (searchOnly d))
         (filter (keepItem (typeOnly d)) (filteredBy (repoOnly d) w))
  /\ subsequence (filteredBy d w) items
  /\ (forall it, In it (filteredBy (repoOnly d) w)
                 <-> In it items
                     /\ (repo_filter d = EmptyString
                         \/ Item.repo it = repo_filter d))
  /\ (forall it, In it (filteredBy (typeOnly d) w)
                 <-> In it items
                     /\ (type_filter d = EmptyString
                         \/ Item.type it = type_filter d))
  /\ (forall it, In it (filteredBy (searchOnly d) w)
                 <-> In it items
                     /\ (search_filter d = EmptyString
                         \/ exists pre post,
                              toLowerCase (Item.title it)
                              = (pre ++ toLowerCase (search_filter d)
                                     ++ post)%string))
  /\ (repo_filter d = EmptyString ->
      type_filter d = EmptyString ->
      search_filter d = EmptyString ->
      filteredBy d w = items).
Proof.
  unfold filteredBy. rewrite !applyFilters_run. cbn [snd this filteredItems].
  split; [|split; [|split; [|split; [|split; [|split]]]]].
  - intros it. rewrite !filter_In, keepItem_split, !andb_true_iff. tauto.
  - rewrite !filter_filter. apply filter_ext. intros it.
    rewrite andb_assoc. apply keepItem_split.
  - apply subsequence_filter.
  - intros it. rewrite filter_In, keepItem_repoOnly. tauto.
  - intros it. rewrite filter_In, keepItem_typeOnly. tauto.
  - intros it. rewrite filter_In, keepItem_searchOnly. tauto.
  - intros Hr Ht Hs.
    induction (staleItems (this w)) as [|it l IH]; [reflexivity|].
    simpl. rewrite IH. unfold keepItem. rewrite Hr, Ht, Hs. reflexivity.
Qed.

Lemma filters_are_conjoined_witness :
  filteredBy noFilters loadedWorld = staleItems (this loadedWorld).
Proof.
  apply (filters_are_conjoined noFilters loadedWorld); reflexivity.
Defined.

(** C10. [applyFilters] reads [this.staleItems] and the controls only: its
    result is a subsequence of the store, it is the same whatever
    [this.currentSort] is, and a sort done before it leaves no trace in it;
    [this.currentSort] itself is left as it was. *)
Theorem applyFilters_ignores_sort (d : dom) (w : world) :
  subsequence (filteredBy d w) (staleItems (this w))
  /\ (forall cur,
        filteredBy d (onThis (withSort cur) w) = filteredBy d w)
  /\ (forall fld,
        filteredBy d (snd (sortBy fld w)) = filteredBy d w)
  /\ currentSort (this (snd (applyFilters d w))) = currentSort (this w).
Proof.
  unfold filteredBy. rewrite !applyFilters_run. cbn [snd this filteredItems].
  repeat split.
  apply subsequence_filter.
Qed.

(** C7. [sortBy] with the field of the current sort flips [ascending] and
    keeps the field; with another field it makes that field the current
    one and sets [ascending] to false. *)
Theorem sortBy_toggles (fld : string) (w : world) :
  let cur := currentSort (this w) in
  (field cur = fld ->
   sortAfter fld w = {| field := fld; ascending := negb (ascending cur) |})
  /\ (field cur <> fld ->
      sortAfter fld w = {| field := fld; ascending := false |}).
Proof.
  unfold sortAfter, sortBy, modify, onThis, toggleSort; simpl.
  split; intros H.
  - rewrite H, String.eqb_refl. reflexivity.
  - apply String.eqb_neq in H. now rewrite H.
Qed.

Lemma sortBy_toggles_witness :
  sortAfter "updated" freshWorld
  = {| field := "updated"; ascending := true |}
  /\ sortAfter "number" freshWorld
     = {| field := "number"; ascending := false |}.
Proof.
  split.
  - apply (proj1 (sortBy_toggles "updated" freshWorld)). reflexivity.
  - apply (proj2 (sortBy_toggles "number" freshWorld)). discriminate.
Defined.

(** C6. Normalising a raw record gives an item whose type is ["pr"]
    exactly when the record's [pull_request] is truthy and ["issue"]
    exactly when it is not; it gives no item only on a record whose
    [user] is null. *)
Theorem kind_follows_marker (org repo : string) (item : Raw.t) (w : world) :
  match fst (normalize org repo item w) with
  | Normal it =>
      (Item.type it = "pr" <-> truthy (Raw.pull_request item) = true)
      /\ (Item.type it = "issue" <-> truthy (Raw.pull_request item) = false)
  | Throw _ => Raw.user item = None
  end.
Proof.
  unfold normalize. destruct (Raw.user item) as [u|]; simpl; [|reflexivity].
  destruct (truthy (Raw.pull_request item)); split; split;
    congruence || discriminate.
Qed.

(** *** The comparator of [sortBy] *)

(** Whatever the field, the keys of all items are primitives of one kind:
    numbers, strings, or NaN throughout (a field no item has). *)
Lemma keyOf_kind (fld : string) :
  (forall it, exists n, keyOf fld it = KNumber (Some n))
  \/ (forall it, exists s, keyOf fld it = KString s)
  \/ (forall it, keyOf fld it = KNumber None).
Proof.
  unfold keyOf, getField.
  repeat match goal with
         | |- context [(fld =? ?s)%string] => destruct (fld =? s)%string
         end;
    try (left; intros it; rewrite ?parseInt_Number_toString; now eexists);
    try (right; left; intros it; now eexists).
  right; right; reflexivity.
Qed.

Lemma str_lt_neither (a b : string) :
  str_lt a b = false -> str_lt b a = false -> a = b.
Proof.
  unfold str_lt, String.ltb. intros H1 H2.
  apply String.compare_eq_iff.
  rewrite (String.compare_antisym b a) in H2.
  destruct (String.compare a b); simpl in *; congruence.
Qed.

Lemma string_compare_refl (a : string) : String.compare a a = Eq.
Proof.
  induction a as [|c a IH]; simpl; [reflexivity|].
  unfold Ascii.compare. now rewrite N.compare_refl.
Qed.

Lemma str_lt_irrefl (a : string) : str_lt a a = false.
Proof.
  unfold str_lt, String.ltb. now rewrite string_compare_refl.
Qed.

(** The comparator answers 0 exactly when neither key is less. *)
Lemma compareItems_zero (cur : sort_state) (fld : string) (a b : Item.t) :
  compareItems cur fld a b = 0
  <-> key_lt (keyOf fld a) (keyOf fld b) = false
      /\ key_lt (keyOf fld b) (keyOf fld a) = false.
Proof.
  unfold compareItems.
  destruct (key_lt (keyOf fld a) (keyOf fld b)),
           (key_lt (keyOf fld b) (keyOf fld a)), (ascending cur);
    split; try tauto; try discriminate; intros [? ?]; discriminate.
Qed.

(** Comparing equal is transitive and symmetric on the items of a list. *)
Lemma compareItems_tie (cur : sort_state) (fld : string) (x y z : Item.t) :
  compareItems cur fld x y = 0 ->
  compareItems cur fld x z = 0 ->
  compareItems cur fld y z = 0.
Proof.
  rewrite !compareItems_zero.
  destruct (keyOf_kind fld) as [K|[K|K]].
  - destruct (K x) as [nx ->], (K y) as [ny ->], (K z) as [nz ->]; simpl.
    rewrite !Z.ltb_ge. lia.
  - destruct (K x) as [sx ->], (K y) as [sy ->], (K z) as [sz ->]; simpl.
    intros [H1 H2] [H3 H4].
    rewrite <- (str_lt_neither _ _ H1 H2), <- (str_lt_neither _ _ H3 H4).
    now rewrite str_lt_irrefl.
  - rewrite !K. simpl. tauto.
Qed.

Lemma sortBy_run (fld : string) (w : world) :
  sortBy fld w
  = (Normal tt,
     {| this :=
          {| staleItems := staleItems (this w);
             filteredItems :=
               JS.sort (compareItems (toggleSort fld (currentSort (this w)))
                          fld)
                 (filteredItems (this w));
             historicalData := historicalData (this w);
             currentSort := toggleSort fld (currentSort (this w)) |};
        requests := requests w |}).
Proof. reflexivity. Qed.

(** C8. [sortBy] keeps every item, and for any item [x] the items whose
    key compares equal to the key of [x] stand, after the sort, in the
    order they had before it. *)
Theorem sortBy_is_stable (fld : string) (w : world) (x : Item.t) :
  let tie := fun y => compareItems (sortAfter fld w) fld x y =? 0 in
  filter tie (sortedBy fld w) = filter tie (filteredItems (this w))
  /\ Permutation (sortedBy fld w) (filteredItems (this w)).
Proof.
  unfold sortedBy, sortAfter. rewrite sortBy_run.
  cbn [snd this filteredItems currentSort].
  split; [|apply sort_perm].
  apply sort_filter. intros y z Hy Hz.
  apply Z.eqb_eq in Hy, Hz.
  now rewrite (compareItems_tie _ _ _ _ _ Hy Hz).
Qed.

(** The comparator on the field [number]. *)
Lemma compareItems_number (cur : sort_state) (a b : Item.t) :
  compareItems cur "number" a b
  = if Item.number a <? Item.number b
    then (if ascending cur then -1 else 1)
    else if Item.number b <? Item.number a
         then (if ascending cur then 1 else -1)
         else 0.
Proof.
  unfold compareItems, keyOf. simpl.
  now rewrite !parseInt_Number_toString.
Qed.

Lemma StronglySorted_impl {A} (R R' : A -> A -> Prop) (l : list A) :
  (forall a b, R a b -> R' a b) ->
  StronglySorted R l -> StronglySorted R' l.
Proof.
  intros HR. induction 1 as [|x l Hl IH Hx]; constructor; [exact IH|].
  eapply Forall_impl; [|exact Hx]. intros b. apply HR.
Qed.

(** C9. Sorting by [number] leaves the items, when their numbers are of
    the magnitude that [String] writes in decimal notation (below 10^21),
    in the order of their numbers as integers, smallest first when the
    sort ends up ascending and largest first otherwise; when it ends up
    ascending, two items numbered 2 and 10 come out as [2, 10] whichever
    way round they went in. *)
Theorem sort_by_number_is_numeric (w : world) :
  let asc := ascending (sortAfter "number" w) in
  (Forall (fun item => decimalNotation (Item.number item) = true)
     (filteredItems (this w)) ->
   StronglySorted
     (fun a b => if asc then Item.number a <= Item.number b
                 else Item.number b <= Item.number a)
     (sortedBy "number" w))
  /\ Permutation (sortedBy "number" w) (filteredItems (this w))
  /\ (asc = true ->
      forall a b,
        Item.number a = 2 -> Item.number b = 10 ->
        (filteredItems (this w) = [b; a] -> sortedBy "number" w = [a; b])
        /\ (filteredItems (this w) = [a; b] -> sortedBy "number" w = [a; b])).
Proof.
  unfold sortedBy, sortAfter. rewrite sortBy_run.
  cbn [snd this filteredItems currentSort].
  set (cur := toggleSort "number" (currentSort (this w))).
  split; [|split; [apply sort_perm|]].
  - intros _. eapply StronglySorted_impl; [|apply sort_sorted].
    + intros a b. cbv beta. rewrite compareItems_number.
      destruct (ascending cur),
               (Z.ltb_spec (Item.number a) (Item.number b)),
               (Z.ltb_spec (Item.number b) (Item.number a)); lia.
    + intros a b. rewrite !compareItems_number.
      destruct (ascending cur),
               (Z.ltb_spec (Item.number a) (Item.number b)),
               (Z.ltb_spec (Item.number b) (Item.number a)); lia.
    + intros a b c. rewrite !compareItems_number.
      destruct (ascending cur),
               (Z.ltb_spec (Item.number a) (Item.number b)),
               (Z.ltb_spec (Item.number b) (Item.number a)),
               (Z.ltb_spec (Item.number b) (Item.number c)),
               (Z.ltb_spec (Item.number c) (Item.number b)),
               (Z.ltb_spec (Item.number a) (Item.number c)),
               (Z.ltb_spec (Item.number c) (Item.number a)); lia.
  - intros Hasc a b Ha Hb. split; intros ->; simpl;
      rewrite !compareItems_number, Hasc, Ha, Hb; reflexivity.
Qed.

Lemma sort_by_number_is_numeric_witness :
  StronglySorted (fun a b => Item.number a <= Item.number b)
    (sortedBy "number" numberSortedWorld)
  /\ sortedBy "number" numberSortedWorld = [item2; item10].
Proof.
  destruct (sort_by_number_is_numeric numberSortedWorld) as (S & _ & T).
  split.
  - apply S. repeat constructor.
  - apply (proj1 (T eq_refl item2 item10 eq_refl eq_refl)). reflexivity.
Defined.

(** ** Trend Reducer *)

Lemma StronglySorted_app_inv {A} (R : A -> A -> Prop) (l1 l2 : list A) :
  StronglySorted R (l1 ++ l2) ->
  forall a b, In a l1 -> In b l2 -> R a b.
Proof.
  induction l1 as [|x l1 IH]; simpl; intros H a b Ha Hb; [contradiction|].
  inversion H as [|? ? Hs Hx]; subst.
  destruct Ha as [<-|Ha]; [|now apply IH].
  rewrite Forall_forall in Hx. apply Hx, in_or_app. now right.
Qed.

Lemma byTotalStaleDesc_sorted (l : list RepoStat.t) :
  StronglySorted
    (fun a b => (RepoStat.totalStale b <= RepoStat.totalStale a)%N)
    (JS.sort byTotalStaleDesc l).
Proof.
  eapply StronglySorted_impl; [|apply sort_sorted].
  - intros a b. unfold byTotalStaleDesc. lia.
  - intros a b. unfold byTotalStaleDesc. lia.
  - intros a b c. unfold byTotalStaleDesc. lia.
Qed.

Lemma StronglySorted_firstn {A} (R : A -> A -> Prop) (n : nat) (l : list A) :
  StronglySorted R l -> StronglySorted R (firstn n l).
Proof.
  intros H. revert n. induction H as [|x l Hl IH Hx]; intros [|n]; simpl;
    try constructor; [apply IH|].
  rewrite Forall_forall in *. intros y Hy. apply Hx.
  rewrite <- (firstn_skipn n l). apply in_or_app. now left.
Qed.

(** The bars of the breakdown: taken from the given entries, none with a
    count of 0, at most ten, largest count first, and no entry left out
    has a larger count than one that is shown. *)
Lemma topRepos_spec (repositories : list RepoStat.t) :
  let nonZero := fun r => negb (RepoStat.totalStale r =? 0)%N in
  (forall r, In r (topRepos repositories) ->
             In r repositories /\ RepoStat.totalStale r <> 0%N)
  /\ List.length (topRepos repositories)
     = Nat.min 10 (List.length (filter nonZero repositories))
  /\ StronglySorted
       (fun a b => (RepoStat.totalStale b <= RepoStat.totalStale a)%N)
       (topRepos repositories)
  /\ exists rest,
       Permutation (topRepos repositories ++ rest)
         (filter nonZero repositories)
       /\ forall a b, In a (topRepos repositories) -> In b rest ->
                      (RepoStat.totalStale b <= RepoStat.totalStale a)%N.
Proof.
  intros nonZero. unfold topRepos, slice0.
  assert (E : filter (fun r => (0 <? RepoStat.totalStale r)%N) repositories
              = filter nonZero repositories).
  { apply filter_ext. intros r. unfold nonZero.
    destruct (N.ltb_spec 0 (RepoStat.totalStale r)),
             (N.eqb_spec (RepoStat.totalStale r) 0); simpl;
      lia || reflexivity. }
  rewrite E. set (sorted := JS.sort byTotalStaleDesc _).
  split; [|split; [|split]].
  - intros r Hr.
    assert (Hs : In r sorted)
      by (rewrite <- (firstn_skipn 10 sorted); apply in_or_app; now left).
    apply sort_In, filter_In in Hs. destruct Hs as [Hi Hn].
    split; [exact Hi|]. unfold nonZero in Hn.
    apply negb_true_iff, N.eqb_neq in Hn. exact Hn.
  - rewrite length_firstn. unfold sorted. now rewrite sort_length.
  - apply StronglySorted_firstn, byTotalStaleDesc_sorted.
  - exists (skipn 10 sorted). split.
    + rewrite firstn_skipn. apply sort_perm.
    + apply StronglySorted_app_inv. rewrite firstn_skipn.
      apply byTotalStaleDesc_sorted.
Qed.

Lemma latestOf_snoc (earlier : list Snapshot.t) (latest : Snapshot.t) :
  latestOf (earlier ++ [latest]) = Some latest.
Proof.
  unfold latestOf. rewrite length_app. simpl.
  replace (List.length earlier + 1 - 1)%nat with (List.length earlier) by lia.
  rewrite nth_error_app2 by lia. now rewrite Nat.sub_diag.
Qed.

(** C4. The breakdown is read off the last snapshot of the series alone:
    of its [repositories] the entries with a count of 0 are dropped, the
    others are put largest count first and at most ten are kept, the ten
    with the largest counts; with an empty series, or a last snapshot
    without [repositories], no breakdown is built and nothing fails. *)
Theorem breakdown_from_latest :
  renderBreakdownChart [] = None
  /\ forall earlier latest,
       match Snapshot.repositories latest with
       | None => renderBreakdownChart (earlier ++ [latest]) = None
       | Some repositories =>
           exists repos,
             renderBreakdownChart (earlier ++ [latest])
             = Some {| labels := map RepoStat.repo repos;
                       staleData := map RepoStat.totalStale repos |}
             /\ (forall r, In r repos ->
                   In r repositories /\ RepoStat.totalStale r <> 0%N)
             /\ List.length repos
                = Nat.min 10
                    (List.length
                       (filter (fun r => negb (RepoStat.totalStale r =? 0)%N)
                          repositories))
             /\ StronglySorted
                  (fun a b =>
                     (RepoStat.totalStale b <= RepoStat.totalStale a)%N)
                  repos
             /\ exists rest,
                  Permutation (repos ++ rest)
                    (filter (fun r => negb (RepoStat.totalStale r =? 0)%N)
                       repositories)
                  /\ forall a b, In a repos -> In b rest ->
                       (RepoStat.totalStale b <= RepoStat.totalStale a)%N
       end.
Proof.
  split; [reflexivity|]. intros earlier latest.
  unfold renderBreakdownChart. rewrite latestOf_snoc.
  destruct (Snapshot.repositories latest) as [repositories|]; [|reflexivity].
  exists (topRepos repositories). split; [reflexivity|].
  apply topRepos_spec.
Qed.

Lemma breakdown_from_latest_witness :
  renderBreakdownChart [] = None
  /\ exists repos,
       renderBreakdownChart
         ([snapshotOf 93 None] ++ [snapshotOf 99 (Some threeRepos)])
       = Some {| labels := map RepoStat.repo repos;
                 staleData := map RepoStat.totalStale repos |}
       /\ List.length repos = 2%nat.
Proof.
  split; [exact (proj1 breakdown_from_latest)|].
  destruct (proj2 breakdown_from_latest [snapshotOf 93 None]
              (snapshotOf 99 (Some threeRepos)))
    as [repos (E & _ & L & _)].
  exists repos. split; [exact E|exact L].
Defined.

(** The same series, evaluated. *)
Example breakdown_of_three :
  renderBreakdownChart [snapshotOf 93 None; snapshotOf 99 (Some threeRepos)]
  = Some {| labels := ["c"; "a"]; staleData := [8; 3]%N |}.
Proof. reflexivity. Qed.

(** The breakdown of fifteen repositories with distinct counts: the ten
    largest, largest first. *)
Example breakdown_top_ten :
  renderBreakdownChart [snapshotOf 100 (Some fifteenRepos)]
  = Some {| labels := ["15"; "14"; "13"; "12"; "11"; "10"; "9"; "8"; "7";
                       "6"];
            staleData := [15; 14; 13; 12; 11; 10; 9; 8; 7; 6]%N |}.
Proof. vm_compute. reflexivity. Qed.

(** *** The window filter *)

Lemma MakeDate_Day (t k : Z) :
  MakeDate (Day t + k) (TimeWithinDay t) = t + k * msPerDay.
Proof.
  unfold MakeDate, Day, TimeWithinDay.
  pose proof (Z.div_mod t msPerDay) as H. unfold msPerDay in *. lia.
Qed.

(** In a zone with one offset, moving by [k] local days is moving by [k]
    times 24 hours. *)
Lemma addLocalDays_fixed (offset t k : Z) :
  addLocalDays (fixedZone offset) t k = t + k * msPerDay.
Proof.
  unfold addLocalDays, UTC, LocalTime, fixedZone; simpl.
  rewrite MakeDate_Day. lia.
Qed.

Lemma TimeClip_Some (t cutoff : Z) :
  TimeClip t = Some cutoff <-> Z.abs t <= maxTime /\ cutoff = t.
Proof.
  unfold TimeClip. destruct (Z.leb_spec (Z.abs t) maxTime); split.
  - intros [= <-]. now split.
  - now intros [_ ->].
  - discriminate.
  - lia.
Qed.

Lemma TimeClip_None (t : Z) : TimeClip t = None <-> maxTime < Z.abs t.
Proof.
  unfold TimeClip. destruct (Z.leb_spec (Z.abs t) maxTime); split;
    (discriminate || lia || reflexivity).
Qed.

(** The test of the filter holds when the cutoff is a valid Date that is
    not after midnight UTC of the snapshot's date. *)
Lemma notBefore_clipped (t : Z) (d : Snapshot.t) :
  notBefore (TimeClip t) d = true
  <-> Z.abs t <= maxTime /\ t <= parseDate (Snapshot.date d).
Proof.
  unfold notBefore. destruct (TimeClip t) as [c|] eqn:E.
  - apply TimeClip_Some in E as [B ->]. rewrite Z.leb_le. tauto.
  - apply TimeClip_None in E. split; [discriminate|lia].
Qed.

Lemma filter_false {A} (l : list A) : filter (fun _ => false) l = [].
Proof. induction l; simpl; auto. Qed.

Lemma periodFilter_number (tz : timezone) (now n : Z)
  (historicalData : list Snapshot.t) :
  0 < n ->
  periodFilter tz now (Number_toString n) historicalData
  = filter (notBefore (TimeClip (addLocalDays tz now (- n))))
      historicalData.
Proof.
  intros Hn. unfold periodFilter. rewrite parseInt_Number_toString.
  destruct (Number_toString n =? "all")%string eqn:E; [|reflexivity].
  apply String.eqb_eq in E.
  pose proof (parseInt_Number_toString n) as P. rewrite E in P.
  discriminate.
Qed.




(** Snapshots dated 40, 10 and 1 days back: the window ["7"] keeps the
    last one, the window ["all"] keeps the three. *)
Example window_end_to_end :
  periodFilter (fixedZone 0) noonOfDay100 "7" threeDays = [snapshotOf 99 None]
  /\ periodFilter (fixedZone 0) noonOfDay100 "all" threeDays = threeDays.
Proof. split; reflexivity. Qed.

(** ** History Loader *)

Lemma probe_run (tz : timezone) (net : network) (today : Z)
  (historyData : list Snapshot.t) (i : Z) (w : world) :
  probe tz net today historyData i w
  = (Normal (historyData ++ loadedAt net (dateStr tz today i)),
     logRequest (GetHistory (dateStr tz today i)) w).
Proof.
  unfold probe, loadedAt. rewrite try_catch_run, bind_run, fetchHistory_run.
  destruct (historyOf net (dateStr tz today i)) as [|st [|data]];
    unfold settle, ok; cbn [status payload];
    try (destruct ((200 <=? st) && (st <=? 299)));
    rewrite ?bind_run; unfold json, throw, ret; cbn [payload];
    now rewrite ?app_nil_r.
Qed.

Lemma forLoop_run (tz : timezone) (net : network) (today : Z)
  (from : Z) (count : nat) (acc : list Snapshot.t) (w : world) :
  forLoop (probe tz net today) from count acc w
  = (Normal (acc ++ flat_map (fun i => loadedAt net (dateStr tz today i))
                     (offsets from count)),
     {| this := this w;
        requests := requests w
                      ++ map (fun i => GetHistory (dateStr tz today i))
                           (offsets from count) |}).
Proof.
  revert from acc w; induction count as [|k IH]; intros from acc w; simpl.
  - unfold ret. rewrite !app_nil_r. now destruct w.
  - rewrite bind_run, probe_run, IH. unfold logRequest; simpl.
    now rewrite <- !app_assoc.
Qed.

Lemma loadHistoricalData_run (tz : timezone) (net : network) (now : Z)
  (w : world) :
  loadHistoricalData tz net now w
  = (Normal tt,
     {| this :=
          {| staleItems := staleItems (this w);
             filteredItems := filteredItems (this w);
             historicalData :=
               match loadedBy tz net now with
               | [] => historicalData (this w)
               | _ :: _ => JS.sort byDate (loadedBy tz net now)
               end;
             currentSort := currentSort (this w) |};
        requests := requests w
                      ++ map (fun i => GetHistory (dateStr tz now i))
                           (offsets 0 365) |}).
Proof.
  unfold loadHistoricalData. rewrite try_catch_run, bind_run, forLoop_run.
  cbn [app]. fold (loadedBy tz net now).
  destruct (loadedBy tz net now) as [|s l] eqn:E.
  - unfold ret. cbn [List.length Nat.ltb Nat.leb]. now destruct w as [[] ?].
  - reflexivity.
Qed.

(** Every run issues the 365 requests of the offsets 0 to 364, in that
    order, and returns normally. *)
Lemma history_probes (tz : timezone) (net : network) (now : Z) (w : world) :
  fst (loadHistoricalData tz net now w) = Normal tt
  /\ requests (snd (loadHistoricalData tz net now w))
     = requests w
         ++ map (fun i => GetHistory (dateStr tz now i)) (offsets 0 365)
  /\ List.length (map (fun i => GetHistory (dateStr tz now i))
                    (offsets 0 365)) = 365%nat.
Proof. rewrite loadHistoricalData_run. repeat split. Qed.

(** Files that are missing, unreachable or not JSON add nothing. *)
Lemma loadedAt_skips (net : network) (date : Z) :
  (failed (historyOf net date) = true -> loadedAt net date = [])
  /\ (forall st, historyOf net date = Response st InvalidJson ->
                 loadedAt net date = []).
Proof.
  unfold failed, loadedAt. split.
  - destruct (historyOf net date) as [|st [|data]]; try reflexivity.
    intros H. apply negb_true_iff in H. now rewrite H.
  - intros st ->. reflexivity.
Qed.

Lemma dateStr_fixed (offset now i : Z) :
  dateStr (fixedZone offset) now i = isoDate now - i.
Proof.
  unfold dateStr. rewrite addLocalDays_fixed. unfold isoDate, Day.
  rewrite Z.div_add by (unfold msPerDay; lia). lia.
Qed.

Lemma offsets_lower (from : Z) (count : nat) (x : Z) :
  In x (offsets from count) -> from <= x.
Proof.
  revert from; induction count as [|k IH]; intros from; simpl; [tauto|].
  intros [<-|H]; [lia|]. apply IH in H. lia.
Qed.

Lemma offsets_NoDup (from : Z) (count : nat) : NoDup (offsets from count).
Proof.
  revert from; induction count as [|k IH]; intros from; simpl;
    constructor; [|apply IH].
  intros H. apply offsets_lower in H. lia.
Qed.

Lemma NoDup_map_injective {A B} (f : A -> B) (l : list A) :
  (forall a b, f a = f b -> a = b) -> NoDup l -> NoDup (map f l).
Proof.
  intros Hf. induction 1 as [|x l Hx Hl IH]; simpl; constructor; [|exact IH].
  rewrite in_map_iff. intros [y [E Hy]]. apply Hf in E. congruence.
Qed.

Lemma loaded_dates_NoDup (net : network) (dates : list Z) :
  coherent net -> NoDup dates ->
  NoDup (map Snapshot.date (flat_map (loadedAt net) dates))
  /\ forall s, In s (flat_map (loadedAt net) dates) ->
               In (Snapshot.date s) dates.
Proof.
  intros Hc. induction 1 as [|d dates Hd Hn [IH1 IH2]]; simpl.
  - split; [constructor|tauto].
  - assert (L : loadedAt net d = []
                \/ exists s, loadedAt net d = [s] /\ Snapshot.date s = d).
    { unfold loadedAt. destruct (historyOf net d) as [|st [|data]] eqn:E;
        try (now left).
      destruct ((200 <=? st) && (st <=? 299)); [|now left].
      right. exists data. split; [reflexivity|]. now apply (Hc d st). }
    destruct L as [->|[s [-> Hs]]]; simpl.
    + split; [exact IH1|]. intros s Hin. right. now apply IH2.
    + split.
      * constructor; [|exact IH1]. rewrite in_map_iff.
        intros [s' [E Hin]]. apply IH2 in Hin. congruence.
      * intros s' [<-|Hin]; [now left|]. right. now apply IH2.
Qed.

Lemma sorted_NoDup_strict (l : list Snapshot.t) :
  StronglySorted (fun a b => Snapshot.date a <= Snapshot.date b) l ->
  NoDup (map Snapshot.date l) ->
  StronglySorted (fun a b => Snapshot.date a < Snapshot.date b) l.
Proof.
  induction 1 as [|x l Hl IH Hx]; simpl; intros Hn; constructor.
  - apply IH. now inversion Hn.
  - inversion Hn as [|? ? Hnotin _]; subst.
    rewrite Forall_forall in *. intros y Hy.
    assert (Snapshot.date x <> Snapshot.date y).
    { intros E. apply Hnotin. rewrite E. now apply in_map. }
    specialize (Hx y Hy). lia.
Qed.

Lemma byDate_sorted (l : list Snapshot.t) :
  StronglySorted (fun a b => Snapshot.date a <= Snapshot.date b)
    (JS.sort byDate l).
Proof.
  eapply StronglySorted_impl; [|apply sort_sorted].
  - intros a b. unfold byDate, parseDate, msPerDay. lia.
  - intros a b. unfold byDate, parseDate, msPerDay. lia.
  - intros a b c. unfold byDate, parseDate, msPerDay. lia.
Qed.

(** X14. What the loader does in a zone with one offset, on a coherent
    store, when called from [init]: 365 requests, for the dates
    [today - i]; the
    files that are missing, unreachable or not JSON are passed over; the
    snapshots loaded are all kept and come out in strictly ascending order
    of date. *)
Lemma history_window_fixed_zone (offset now : Z) (net : network)
  (w : world) :
  coherent net ->
  historicalData (this w) = [] ->
  let w' := snd (loadHistoricalData (fixedZone offset) net now w) in
  fst (loadHistoricalData (fixedZone offset) net now w) = Normal tt
  /\ requests w'
     = requests w ++ map (fun i => GetHistory (isoDate now - i))
                       (offsets 0 365)
  /\ Permutation (historicalData (this w'))
       (flat_map (fun i => loadedAt net (isoDate now - i)) (offsets 0 365))
  /\ StronglySorted (fun a b => Snapshot.date a < Snapshot.date b)
       (historicalData (this w')).
Proof.
  intros Hc Hw w'. unfold w'. rewrite loadHistoricalData_run.
  cbn [fst snd this requests historicalData].
  assert (E : loadedBy (fixedZone offset) net now
              = flat_map (loadedAt net)
                  (map (fun i => isoDate now - i) (offsets 0 365))).
  { unfold loadedBy. rewrite flat_map_concat_map, flat_map_concat_map.
    rewrite map_map. f_equal. apply map_ext. intros i.
    now rewrite dateStr_fixed. }
  assert (D : NoDup (map (fun i => isoDate now - i) (offsets 0 365))).
  { apply NoDup_map_injective; [|apply offsets_NoDup].
    intros a b. lia. }
  destruct (loaded_dates_NoDup net _ Hc D) as [N _]. rewrite <- E in N.
  split; [reflexivity|]. split.
  { f_equal. apply map_ext. intros i. now rewrite dateStr_fixed. }
  assert (F : flat_map (fun i => loadedAt net (isoDate now - i))
                (offsets 0 365) = loadedBy (fixedZone offset) net now).
  { rewrite E. rewrite !flat_map_concat_map, map_map. reflexivity. }
  rewrite F. destruct (loadedBy (fixedZone offset) net now) as [|s l] eqn:L.
  - rewrite Hw. split; constructor.
  - rewrite <- L in *. split; [apply sort_perm|].
    apply sorted_NoDup_strict; [apply byDate_sorted|].
    eapply Permutation_NoDup; [|exact N].
    apply Permutation_map. symmetry. apply sort_perm.
Qed.

(** C2, at the failing input.  In New York at 19:30 on 15 November 2024
    the offsets 250 and 251 both give the date 10 March (day 19792), and
    no offset gives 3 November (day 20030); with a file for 10 March in
    the store the series has that date twice. *)
Theorem history_duplicate_under_dst :
  dateStr newYork2024 nov15evening 250 = 19792
  /\ dateStr newYork2024 nov15evening 251 = 19792
  /\ ~ In 20030 (map (dateStr newYork2024 nov15evening) (offsets 0 365))
  /\ map Snapshot.date
       (historicalData
          (this (snd (loadHistoricalData newYork2024 marchNet nov15evening
                        freshWorld))))
     = [19792; 19792].
Proof.
  split; [reflexivity|]. split; [reflexivity|]. split.
  - intros H.
    assert (E : existsb (Z.eqb 20030)
                  (map (dateStr newYork2024 nov15evening) (offsets 0 365))
                = true).
    { apply existsb_exists. exists 20030. split; [exact H|apply Z.eqb_refl]. }
    vm_compute in E. discriminate.
  - vm_compute. reflexivity.
Qed.

Lemma patchyNet_coherent : coherent patchyNet.
Proof.
  intros date st data. unfold patchyNet; simpl.
  repeat match goal with
         | |- context [date =? ?k] => destruct (Z.eqb_spec date k)
         end;
    intros H; inversion H; subst; reflexivity.
Qed.

(** The loader on the patchy store: the three snapshots that load, oldest
    first. *)
Example history_tolerates_gaps :
  map Snapshot.date
    (historicalData
       (this (snd (loadHistoricalData (fixedZone 0) patchyNet noonOfDay100
                     freshWorld))))
  = [95; 98; 100]
  /\ StronglySorted (fun a b => Snapshot.date a < Snapshot.date b)
       (historicalData
          (this (snd (loadHistoricalData (fixedZone 0) patchyNet
                        noonOfDay100 freshWorld)))).
Proof.
  split; [vm_compute; reflexivity|].
  vm_compute. repeat constructor.
Qed.

(* ================================================================== *)
(** * Part III: further properties of the class *)
(* ================================================================== *)

(** ** The order of strings *)

Lemma str_lt_iff (a b : string) :
  str_lt a b = true <-> OrderedTypeEx.String_as_OT.lt a b.
Proof.
  unfold str_lt, String.ltb.
  rewrite <- OrderedTypeEx.String_as_OT.cmp_lt.
  unfold OrderedTypeEx.String_as_OT.cmp.
  destruct (String.compare a b); split; congruence.
Qed.

Lemma str_lt_trans (a b c : string) :
  str_lt a b = true -> str_lt b c = true -> str_lt a c = true.
Proof.
  rewrite !str_lt_iff. apply OrderedTypeEx.String_as_OT.lt_trans.
Qed.

Lemma str_lt_asym (a b : string) : str_lt a b = true -> str_lt b a = false.
Proof.
  intros H. destruct (str_lt b a) eqn:E; [|reflexivity].
  pose proof (str_lt_trans _ _ _ H E) as T.
  rewrite str_lt_irrefl in T. discriminate.
Qed.

Lemma str_lt_total (a b : string) :
  str_lt a b = true \/ a = b \/ str_lt b a = true.
Proof.
  destruct (str_lt a b) eqn:E1; [now left|].
  destruct (str_lt b a) eqn:E2; [now right; right|].
  right; left. now apply str_lt_neither.
Qed.

(** ** The comparator of [sortBy] is consistent *)

Lemma key_lt_asym (a b : sortKey) : key_lt a b = true -> key_lt b a = false.
Proof.
  destruct a as [[x|]|x], b as [[y|]|y]; simpl; try congruence.
  - rewrite Z.ltb_lt, Z.ltb_ge. lia.
  - apply str_lt_asym.
Qed.

(** "Not greater" is transitive on the keys of one field. *)
Lemma key_le_trans (fld : string) (x y z : Item.t) :
  key_lt (keyOf fld y) (keyOf fld x) = false ->
  key_lt (keyOf fld z) (keyOf fld y) = false ->
  key_lt (keyOf fld z) (keyOf fld x) = false.
Proof.
  destruct (keyOf_kind fld) as [K|[K|K]].
  - destruct (K x) as [nx ->], (K y) as [ny ->], (K z) as [nz ->]; simpl.
    rewrite !Z.ltb_ge. lia.
  - destruct (K x) as [sx ->], (K y) as [sy ->], (K z) as [sz ->]; simpl.
    intros H1 H2.
    destruct (str_lt sz sx) eqn:E; [|reflexivity].
    destruct (str_lt_total sx sy) as [L|[->|L]]; [| |congruence].
    + pose proof (str_lt_trans _ _ _ E L). congruence.
    + congruence.
  - rewrite !K. reflexivity.
Qed.

(** The comparator in terms of the order of the keys. *)
Lemma compareItems_le (cur : sort_state) (fld : string) (a b : Item.t) :
  compareItems cur fld a b <= 0
  <-> if ascending cur
      then key_lt (keyOf fld b) (keyOf fld a) = false
      else key_lt (keyOf fld a) (keyOf fld b) = false.
Proof.
  unfold compareItems.
  destruct (key_lt (keyOf fld a) (keyOf fld b)) eqn:E1,
           (key_lt (keyOf fld b) (keyOf fld a)) eqn:E2,
           (ascending cur);
    try (apply key_lt_asym in E1; congruence);
    split; intros; lia || congruence.
Qed.

Lemma compareItems_anti (cur : sort_state) (fld : string) (a b : Item.t) :
  compareItems cur fld a b < 0 <-> 0 < compareItems cur fld b a.
Proof.
  unfold compareItems.
  destruct (key_lt (keyOf fld a) (keyOf fld b)) eqn:E1,
           (key_lt (keyOf fld b) (keyOf fld a)) eqn:E2,
           (ascending cur);
    try (apply key_lt_asym in E1; congruence); lia.
Qed.

Lemma compareItems_trans (cur : sort_state) (fld : string)
  (a b c : Item.t) :
  compareItems cur fld a b <= 0 ->
  compareItems cur fld b c <= 0 ->
  compareItems cur fld a c <= 0.
Proof.
  rewrite !compareItems_le. destruct (ascending cur); intros H1 H2.
  - now apply key_le_trans with b.
  - now apply key_le_trans with b.
Qed.

(** Whether two items tie does not depend on the direction of the sort. *)
Lemma tied_iff (cur : sort_state) (fld : string) (a b : Item.t) :
  (compareItems cur fld a b =? 0) = tied fld a b.
Proof.
  unfold tied, compareItems; simpl.
  destruct (key_lt (keyOf fld a) (keyOf fld b)),
           (key_lt (keyOf fld b) (keyOf fld a)), (ascending cur);
    reflexivity.
Qed.

Lemma sortBy_sorted (fld : string) (w : world) :
  StronglySorted
    (fun a b => compareItems (sortAfter fld w) fld a b <= 0)
    (sortedBy fld w).
Proof.
  unfold sortedBy, sortAfter. rewrite sortBy_run.
  cbn [snd this filteredItems currentSort].
  apply sort_sorted.
  - intros x y H. apply compareItems_anti in H. lia.
  - apply compareItems_trans.
Qed.

(** ** Repeated sorts *)

Lemma toggleSort_field (fld : string) (cur : sort_state) :
  field (toggleSort fld cur) = fld.
Proof.
  unfold toggleSort. destruct (String.eqb_spec (field cur) fld); simpl; auto.
Qed.

(** A second click on the same header flips the direction and nothing
    else. *)
Lemma toggleSort_twice (fld : string) (cur : sort_state) :
  toggleSort fld (toggleSort fld cur)
  = {| field := fld; ascending := negb (ascending (toggleSort fld cur)) |}.
Proof.
  unfold toggleSort at 1. rewrite toggleSort_field, String.eqb_refl.
  reflexivity.
Qed.

Lemma compareItems_flip (fld0 fld : string) (asc : bool) (a b : Item.t) :
  compareItems {| field := fld0; ascending := negb asc |} fld a b
  = - compareItems {| field := fld0; ascending := asc |} fld a b.
Proof.
  unfold compareItems; simpl.
  destruct (key_lt (keyOf fld a) (keyOf fld b)),
           (key_lt (keyOf fld b) (keyOf fld a)), asc; reflexivity.
Qed.

Lemma compareItems_field (cur : sort_state) (fld0 fld : string)
  (a b : Item.t) :
  compareItems cur fld a b
  = compareItems {| field := fld0; ascending := ascending cur |} fld a b.
Proof. reflexivity. Qed.

Lemma StronglySorted_snoc {A} (R : A -> A -> Prop) (l : list A) (x : A) :
  StronglySorted R l -> Forall (fun a => R a x) l ->
  StronglySorted R (l ++ [x]).
Proof.
  induction 1 as [|y l Hl IH Hy]; simpl; intros F.
  - repeat constructor.
  - inversion F; subst. constructor; [now apply IH|].
    apply Forall_app. split; [exact Hy|]. now constructor.
Qed.

Lemma StronglySorted_rev {A} (R : A -> A -> Prop) (l : list A) :
  StronglySorted R l -> StronglySorted (fun a b => R b a) (rev l).
Proof.
  induction 1 as [|x l Hl IH Hx]; simpl; [constructor|].
  apply StronglySorted_snoc; [exact IH|].
  apply Forall_rev. exact Hx.
Qed.

Lemma filter_none {A} (p : A -> bool) (l : list A) :
  (forall x, In x l -> p x = false) -> filter p l = [].
Proof.
  induction l as [|a l IH]; simpl; intros H; [reflexivity|].
  rewrite (H a) by now left. apply IH. intros x Hx. apply H. now right.
Qed.

Lemma tied_trans (fld : string) (x a b : Item.t) :
  tied fld x a = true -> tied fld x b = true -> tied fld a b = true.
Proof.
  unfold tied. rewrite !Z.eqb_eq. apply compareItems_tie.
Qed.

Lemma noTies_filter (fld : string) (l : list Item.t) (x : Item.t) :
  noTies fld l = true ->
  (List.length (filter (tied fld x) l) <= 1)%nat.
Proof.
  induction l as [|a l IH]; simpl; intros H; [lia|].
  apply andb_true_iff in H. destruct H as [Ha Hl].
  destruct (tied fld x a) eqn:E; [|now apply IH].
  rewrite filter_none; [simpl; lia|].
  intros b Hb. destruct (tied fld x b) eqn:Eb; [|reflexivity].
  rewrite forallb_forall in Ha. specialize (Ha b Hb).
  rewrite (tied_trans _ _ _ _ E Eb) in Ha. discriminate.
Qed.

Lemma rev_short {A} (l : list A) : (List.length l <= 1)%nat -> rev l = l.
Proof.
  destruct l as [|a [|b l]]; simpl; intros H; reflexivity || lia.
Qed.

Lemma filter_tied (cur : sort_state) (fld : string) (x : Item.t)
  (l : list Item.t) :
  filter (fun y => compareItems cur fld x y =? 0) l
  = filter (tied fld x) l.
Proof. apply filter_ext. intros y. apply tied_iff. Qed.

Lemma sort_tied (cur : sort_state) (fld : string) (x : Item.t)
  (l : list Item.t) :
  filter (tied fld x) (JS.sort (compareItems cur fld) l)
  = filter (tied fld x) l.
Proof.
  rewrite <- !(filter_tied cur). apply sort_filter.
  intros y z Hy Hz. apply Z.eqb_eq in Hy, Hz.
  now rewrite (compareItems_tie _ _ _ _ _ Hy Hz).
Qed.

(** X1. A second click on the same header shows the table of the first
    click in reverse, provided no two items of the table tie on that
    field. *)
Theorem second_sort_reverses (fld : string) (w : world) :
  noTies fld (filteredItems (this w)) = true ->
  sortedTwice fld w = rev (sortedBy fld w).
Proof.
  intros H. unfold sortedTwice. unfold sortedBy at 1.
  rewrite sortBy_run. cbn [snd this filteredItems].
  fold (sortedBy fld w). fold (sortAfter fld w).
  unfold sortAfter. rewrite sortBy_run. cbn [snd this currentSort].
  rewrite toggleSort_twice.
  set (cur := toggleSort fld (currentSort (this w))).
  assert (L : sortedBy fld w
              = JS.sort (compareItems cur fld) (filteredItems (this w)))
    by reflexivity.
  symmetry. apply sort_unique.
  - apply compareItems_anti.
  - apply compareItems_trans.
  - eapply StronglySorted_impl;
      [|apply StronglySorted_rev; rewrite L; apply sort_sorted].
    + intros a b Hba. cbv beta in Hba. rewrite compareItems_flip.
      rewrite (compareItems_field cur fld) in Hba.
      pose proof (compareItems_anti
                    {| field := fld; ascending := ascending cur |} fld a b).
      lia.
    + intros x y Hxy. apply compareItems_anti in Hxy. lia.
    + apply compareItems_trans.
  - intros x. rewrite !filter_tied, filter_rev.
    apply rev_short. rewrite L, sort_tied. now apply noTies_filter.
Qed.

Lemma second_sort_reverses_witness :
  sortedTwice "title" loadedWorld = rev (sortedBy "title" loadedWorld).
Proof. apply second_sort_reverses. reflexivity. Defined.

(** X2. A third click on the same header shows the table of the first
    click again, ties or not, and leaves the sort state of the first
    click. *)
Theorem third_sort_is_first (fld : string) (w : world) :
  sortedThrice fld w = sortedBy fld w
  /\ sortAfter fld (snd (sortBy fld (snd (sortBy fld w)))) = sortAfter fld w.
Proof.
  unfold sortedThrice, sortedBy, sortAfter. rewrite !sortBy_run.
  cbn [snd this filteredItems currentSort].
  set (cur := toggleSort fld (currentSort (this w))).
  assert (E : toggleSort fld (toggleSort fld cur)
              = {| field := fld; ascending := ascending cur |}).
  { unfold toggleSort at 1 2. unfold cur.
    rewrite toggleSort_field, String.eqb_refl. simpl.
    rewrite String.eqb_refl. simpl. now rewrite negb_involutive. }
  assert (F : {| field := fld; ascending := ascending cur |} = cur).
  { unfold cur. rewrite <- (toggleSort_field fld (currentSort (this w))) at 1.
    now destruct (toggleSort fld (currentSort (this w))). }
  rewrite E, F. split; [|reflexivity].
  symmetry. apply sort_unique.
  - apply compareItems_anti.
  - apply compareItems_trans.
  - apply sort_sorted; [|apply compareItems_trans].
    intros x y Hxy. apply compareItems_anti in Hxy. lia.
  - intros x. rewrite !filter_tied, !sort_tied. reflexivity.
Qed.

Lemma sort_constant {A} (comparefn : A -> A -> Z) (l : list A) :
  (forall x y, comparefn x y <= 0) -> JS.sort comparefn l = l.
Proof.
  intros H. induction l as [|x l IH]; simpl; [reflexivity|].
  rewrite IH. destruct l as [|y l]; simpl; [reflexivity|].
  destruct (Z.ltb_spec 0 (comparefn x y)); [|reflexivity].
  specialize (H x y). lia.
Qed.

(** X3. A click on a header whose [data-sort] names no field of the
    items leaves the table in the order it has, while the sort state
    changes as for any other field. *)
Theorem sort_by_unknown_field (fld : string) (w : world) :
  (forall item, getField item fld = FUndefined) ->
  sortedBy fld w = filteredItems (this w)
  /\ field (sortAfter fld w) = fld.
Proof.
  intros H. unfold sortedBy, sortAfter. rewrite sortBy_run.
  cbn [snd this filteredItems currentSort].
  split; [|apply toggleSort_field].
  apply sort_constant. intros x y.
  assert (K : forall item, keyOf fld item = KNumber None).
  { intros item. unfold keyOf. pose proof (H blankItem) as Hb.
    unfold getField in Hb. rewrite H.
    destruct (fld =? "type")%string; [discriminate|].
    destruct (fld =? "repo")%string; [discriminate|].
    destruct (fld =? "org")%string; [discriminate|].
    destruct (fld =? "repoName")%string; [discriminate|].
    destruct (fld =? "title")%string; [discriminate|].
    destruct (fld =? "number")%string; [discriminate|].
    destruct (fld =? "author")%string; [discriminate|].
    destruct (fld =? "updated")%string; [discriminate|].
    reflexivity. }
  unfold compareItems. rewrite !K. simpl. lia.
Qed.

Lemma sort_by_unknown_field_witness :
  sortedBy "age" loadedWorld = filteredItems (this loadedWorld)
  /\ field (sortAfter "age" loadedWorld) = "age".
Proof. apply sort_by_unknown_field. intros item. reflexivity. Defined.

Lemma keyOf_updated (item : Item.t) :
  keyOf "updated" item = KNumber (Some (getTime (Item.updated item))).
Proof. reflexivity. Qed.

(** X4. Sorting by [updated] puts the items in the order of their
    instants, oldest first when the sort ends up ascending and newest
    first otherwise; from the state the constructor sets up, the first
    click on that header ends up ascending. *)
Theorem sort_by_updated (w : world) :
  StronglySorted
    (fun a b =>
       if ascending (sortAfter "updated" w)
       then getTime (Item.updated a) <= getTime (Item.updated b)
       else getTime (Item.updated b) <= getTime (Item.updated a))
    (sortedBy "updated" w)
  /\ (currentSort (this w) = currentSort constructor ->
      ascending (sortAfter "updated" w) = true).
Proof.
  split.
  - eapply StronglySorted_impl; [|apply sortBy_sorted].
    intros a b. cbv beta. rewrite compareItems_le, !keyOf_updated. simpl.
    destruct (ascending (sortAfter "updated" w)); rewrite Z.ltb_ge; lia.
  - intros E. unfold sortAfter. rewrite sortBy_run.
    cbn [snd this currentSort]. rewrite E. reflexivity.
Qed.

Lemma sort_by_updated_witness :
  ascending (sortAfter "updated" loadedWorld) = true.
Proof. apply (proj2 (sort_by_updated loadedWorld)). reflexivity. Defined.

(** X5. Sorting by a field that holds strings orders the items by the
    lower-cased strings, so the case of the letters plays no part. *)
Theorem sort_by_string_field (fld : string) (sel : Item.t -> string)
  (w : world) :
  (forall item, getField item fld = FString (sel item)) ->
  StronglySorted
    (fun a b =>
       if ascending (sortAfter fld w)
       then str_lt (toLowerCase (sel b)) (toLowerCase (sel a)) = false
       else str_lt (toLowerCase (sel a)) (toLowerCase (sel b)) = false)
    (sortedBy fld w).
Proof.
  intros H.
  assert (U : (fld =? "updated")%string = false).
  { destruct (String.eqb_spec fld "updated") as [->|]; [|reflexivity].
    specialize (H blankItem). discriminate. }
  assert (N : (fld =? "number")%string = false).
  { destruct (String.eqb_spec fld "number") as [->|]; [|reflexivity].
    specialize (H blankItem). discriminate. }
  assert (K : forall item, keyOf fld item = KString (toLowerCase (sel item))).
  { intros item. unfold keyOf. now rewrite U, N, H. }
  eapply StronglySorted_impl; [|apply sortBy_sorted].
  intros a b. cbv beta. rewrite compareItems_le, !K. simpl. tauto.
Qed.

Lemma sort_by_string_field_witness :
  StronglySorted
    (fun a b =>
       if ascending (sortAfter "title" loadedWorld)
       then str_lt (toLowerCase (Item.title b)) (toLowerCase (Item.title a))
            = false
       else str_lt (toLowerCase (Item.title a)) (toLowerCase (Item.title b))
            = false)
    (sortedBy "title" loadedWorld).
Proof.
  apply (sort_by_string_field "title" Item.title loadedWorld).
  intros item. reflexivity.
Defined.

(** ** The store after a load cycle *)

Lemma normalized_spec (org repo : string) (items : list Raw.t)
  (item : Item.t) :
  In item (normalized org repo items) ->
  exists raw u, In raw items /\ Raw.user raw = Some u
                /\ item = itemOf org repo raw u.
Proof.
  induction items as [|raw items IH]; simpl; [tauto|].
  destruct (Raw.user raw) as [u|] eqn:E; simpl; [|tauto].
  intros [<-|H].
  - exists raw, u. auto.
  - destruct (IH H) as (raw' & u' & Hin & Hu & ->). exists raw', u'. auto.
Qed.

Lemma delivered_spec (cfg : Config.t) (net : network) (org repo : string)
  (item : Item.t) :
  In item (delivered cfg net org repo) ->
  exists raw u, item = itemOf org repo raw u.
Proof.
  unfold delivered.
  destruct (issuesOf net (issuesUrl org repo) (headers cfg))
    as [|st [|[|items]]]; simpl; try tauto.
  destruct ((200 <=? st) && (st <=? 299)); simpl; [|tauto].
  intros H. apply normalized_spec in H.
  destruct H as (raw & u & _ & _ & ->). eauto.
Qed.

Lemma deliveredAll_wellFormed (cfg : Config.t) (net : network)
  (item : Item.t) :
  In item (deliveredAll cfg net (Config.repositories cfg)) ->
  wellFormed cfg item.
Proof.
  unfold deliveredAll. rewrite in_flat_map. intros [r [Hr H]].
  apply delivered_spec in H. destruct H as (raw & u & ->).
  unfold wellFormed, itemOf; simpl. split; [|split; [reflexivity|]].
  - destruct (truthy (Raw.pull_request raw)); auto.
  - now destruct r.
Qed.

(** X6. After a load cycle every item of the store has the type ["pr"] or
    ["issue"], has [repo] equal to its [org], a slash and its [repoName],
    and comes from a repository of the configuration; the table is the
    store filtered by the controls, in the order of the store. *)
Theorem store_after_load (cfg : Config.t) (net : network) (d : dom)
  (w : world) :
  let t := this (snd (loadData cfg net d w)) in
  Forall (wellFormed cfg) (staleItems t)
  /\ filteredItems t = filter (keepItem d) (staleItems t).
Proof.
  rewrite loadData_run. cbn [snd this staleItems filteredItems].
  split; [|reflexivity].
  apply Forall_forall. intros item. apply deliveredAll_wellFormed.
Qed.

(** *** [updateStats] *)

Lemma newSet_In (arr : list string) (x : string) :
  In x (newSet arr) <-> In x arr.
Proof.
  induction arr as [|y arr IH]; simpl; [tauto|].
  rewrite filter_In, IH, negb_true_iff, String.eqb_neq.
  destruct (string_dec y x) as [->|N]; [tauto|].
  split; [tauto|]. intros [E|H]; [tauto|]. right. split; congruence.
Qed.

Lemma newSet_NoDup (arr : list string) : NoDup (newSet arr).
Proof.
  induction arr as [|y arr IH]; simpl; constructor.
  - rewrite filter_In, negb_true_iff, String.eqb_neq. tauto.
  - now apply NoDup_filter.
Qed.

Lemma newSet_length (arr : list string) :
  (List.length (newSet arr) <= List.length arr)%nat.
Proof.
  induction arr as [|y arr IH]; simpl; [lia|].
  pose proof (filter_length_le (fun z => negb (z =? y)%string) (newSet arr)).
  lia.
Qed.

Lemma count_by_type (l : list Item.t) :
  (List.length (filter (fun i => (Item.type i =? "issue")%string) l)
   + List.length (filter (fun i => (Item.type i =? "pr")%string) l)
   <= List.length l)%nat
  /\ (Forall (fun i => Item.type i = "pr" \/ Item.type i = "issue") l ->
      (List.length (filter (fun i => (Item.type i =? "issue")%string) l)
       + List.length (filter (fun i => (Item.type i =? "pr")%string) l)
       = List.length l)%nat).
Proof.
  induction l as [|i l [IH1 IH2]]; simpl; [split; [lia|reflexivity]|].
  split.
  - destruct (String.eqb_spec (Item.type i) "issue") as [E|],
             (String.eqb_spec (Item.type i) "pr") as [E'|]; simpl;
      try lia. rewrite E in E'. discriminate.
  - intros F. inversion F as [|? ? Hi Hl]; subst. specialize (IH2 Hl).
    destruct (String.eqb_spec (Item.type i) "issue") as [E|],
             (String.eqb_spec (Item.type i) "pr") as [E'|]; simpl;
      try lia.
    + rewrite E in E'. discriminate.
    + destruct Hi; contradiction.
Qed.

(** X7. The numbers [updateStats] shows: issues and PRs together never
    exceed the total, and no more repositories are counted than there are
    items; after a load cycle the issues and the PRs add up to the total
    and no more repositories are counted than are configured. *)
Theorem stats_add_up (cfg : Config.t) (net : network) (d : dom)
  (w : world) :
  (forall t,
     (Stats.totalIssues (updateStats t) + Stats.totalPRs (updateStats t)
      <= Stats.totalStale (updateStats t))%nat
     /\ (Stats.totalRepos (updateStats t)
         <= Stats.totalStale (updateStats t))%nat)
  /\ (let s := updateStats (this (snd (loadData cfg net d w))) in
      (Stats.totalIssues s + Stats.totalPRs s = Stats.totalStale s)%nat
      /\ (Stats.totalRepos s
          <= List.length (Config.repositories cfg))%nat).
Proof.
  split.
  - intros t. unfold updateStats; simpl. split.
    + apply count_by_type.
    + rewrite <- (length_map Item.repo (staleItems t)). apply newSet_length.
  - cbv zeta.
    assert (F : Forall (wellFormed cfg)
                  (staleItems (this (snd (loadData cfg net d w))))).
    { rewrite loadData_run. cbn [snd this staleItems].
      apply Forall_forall. intros item. apply deliveredAll_wellFormed. }
    set (t := this (snd (loadData cfg net d w))) in *.
    unfold updateStats; simpl. split.
    + apply count_by_type. eapply Forall_impl; [|exact F].
      intros i Hi. apply Hi.
    + rewrite <- (length_map
                    (fun r => (Config.org r ++ "/" ++ Config.repo r)%string)
                    (Config.repositories cfg)).
      apply NoDup_incl_length; [apply newSet_NoDup|].
      intros x Hx. apply newSet_In, in_map_iff in Hx.
      destruct Hx as (i & <- & Hi).
      rewrite Forall_forall in F. destruct (F i Hi) as (_ & -> & Hr).
      apply in_map_iff. eexists. split; [|exact Hr]. reflexivity.
Qed.

(** *** [populateRepoFilter] *)

Lemma defaultCompare_le (x y : string) :
  defaultCompare x y <= 0 <-> str_lt y x = false.
Proof.
  unfold defaultCompare.
  destruct (str_lt x y) eqn:E1, (str_lt y x) eqn:E2;
    try (apply str_lt_asym in E1; congruence); split; intros; lia || congruence.
Qed.

Lemma defaultCompare_sorted (l : list string) :
  StronglySorted (fun a b => str_lt b a = false)
    (JS.sort defaultCompare l).
Proof.
  eapply StronglySorted_impl; [|apply sort_sorted].
  - intros a b. apply defaultCompare_le.
  - intros x y H.
    assert (N : ~ defaultCompare x y <= 0) by lia.
    rewrite defaultCompare_le in N. rewrite defaultCompare_le.
    destruct (str_lt y x) eqn:E; [|congruence].
    now apply str_lt_asym.
  - intros x y z. rewrite !defaultCompare_le. intros H1 H2.
    destruct (str_lt z x) eqn:E; [|reflexivity].
    destruct (str_lt_total x y) as [L|[->|L]]; [|congruence|congruence].
    pose proof (str_lt_trans _ _ _ E L). congruence.
Qed.

Lemma sorted_NoDup_ascending (l : list string) :
  StronglySorted (fun a b => str_lt b a = false) l ->
  NoDup l ->
  StronglySorted (fun a b => str_lt a b = true) l.
Proof.
  induction 1 as [|x l Hl IH Hx]; intros Hn; constructor.
  - apply IH. now inversion Hn.
  - inversion Hn as [|? ? Hnotin _]; subst.
    rewrite Forall_forall in *. intros y Hy. specialize (Hx y Hy).
    destruct (str_lt_total x y) as [L|[->|L]]; [exact L| |congruence].
    contradiction.
Qed.

(** X8. The repository filter is filled with the option "All
    Repositories", of empty value, followed by one option for each
    repository that has an item in the store, each once, in strictly
    ascending order of the names; there are as many of them as
    [updateStats] counts repositories. *)
Theorem repo_options (t : dashboard) :
  exists repos,
    populateRepoFilter t
    = {| SelectOption.value := EmptyString;
         SelectOption.textContent := "All Repositories" |}
      :: map (fun repo => {| SelectOption.value := repo;
                             SelectOption.textContent := repo |}) repos
    /\ StronglySorted (fun a b => str_lt a b = true) repos
    /\ (forall repo, In repo repos
                     <-> exists item, In item (staleItems t)
                                      /\ Item.repo item = repo)
    /\ List.length repos = Stats.totalRepos (updateStats t).
Proof.
  exists (JS.sort defaultCompare (newSet (map Item.repo (staleItems t)))).
  split; [reflexivity|]. split; [|split].
  - apply sorted_NoDup_ascending; [apply defaultCompare_sorted|].
    eapply Permutation_NoDup; [symmetry; apply sort_perm|].
    apply newSet_NoDup.
  - intros repo. rewrite sort_In, newSet_In, in_map_iff.
    split; intros [item [H1 H2]]; exists item; tauto.
  - apply sort_length.
Qed.

(** X9. Choosing an option of the repository filter, the two other
    filters being empty: the option "All Repositories" shows the whole
    store, and any other option shows at least one item and only items
    of that repository. *)
Theorem repo_option_selects (w : world) (o : SelectOption.t) :
  In o (populateRepoFilter (this w)) ->
  let d := {| repo_filter := SelectOption.value o;
              type_filter := EmptyString;
              search_filter := EmptyString;
              trend_period := "all" |} in
  (SelectOption.value o = EmptyString ->
   filteredBy d w = staleItems (this w))
  /\ (SelectOption.value o <> EmptyString ->
      filteredBy d w <> []
      /\ forall item, In item (filteredBy d w) ->
                      Item.repo item = SelectOption.value o).
Proof.
  intros Ho d. unfold filteredBy. rewrite applyFilters_run.
  cbn [snd this filteredItems]. split.
  - intros E. unfold d. rewrite E.
    induction (staleItems (this w)) as [|i l IH]; [reflexivity|].
    simpl. now rewrite IH.
  - intros N. unfold populateRepoFilter in Ho.
    destruct Ho as [<-|Ho]; [contradiction|].
    apply in_map_iff in Ho. destruct Ho as (repo & <- & Hr).
    apply sort_In, newSet_In, in_map_iff in Hr.
    destruct Hr as (item & Hrepo & Hi). simpl in *.
    assert (K : forall i, keepItem d i = true <-> Item.repo i = repo).
    { intros i. unfold keepItem, d, nonEmpty; simpl.
      apply String.eqb_neq in N. rewrite N. simpl.
      destruct (String.eqb_spec (Item.repo i) repo); simpl;
        split; congruence. }
    split.
    + intros F.
      assert (In item (filter (keepItem d) (staleItems (this w))))
        by (apply filter_In; split; [exact Hi|now apply K]).
      rewrite F in H. contradiction.
    + intros i Hin. apply filter_In in Hin. now apply K.
Qed.

Lemma repo_option_selects_witness :
  filteredBy {| repo_filter := "acme/web";
                type_filter := EmptyString;
                search_filter := EmptyString;
                trend_period := "all" |} loadedWorld <> [].
Proof.
  apply (repo_option_selects loadedWorld
           {| SelectOption.value := "acme/web";
              SelectOption.textContent := "acme/web" |}).
  - simpl. right. right. now left.
  - discriminate.
Defined.

(** ** The load cycle as a whole *)

(** X10. A load cycle issues exactly one request for each repository of
    the configuration, in the order of the configuration and whether or
    not earlier ones failed; each carries the header [Authorization:
    token T] when a token [T] is configured and no such header when the
    token is empty. *)
Theorem load_cycle_requests (cfg : Config.t) (net : network) (d : dom)
  (w : world) :
  requests (snd (loadData cfg net d w))
  = requests w
      ++ map (fun r =>
                GetIssues
                  ("https://api.github.com/repos/" ++ Config.org r ++ "/"
                     ++ Config.repo r
                     ++ "/issues?labels=stale&state=open&per_page=100")%string
                  (if (Config.githubToken cfg =? EmptyString)%string
                   then None
                   else Some ("token " ++ Config.githubToken cfg)%string))
          (Config.repositories cfg).
Proof. rewrite loadData_run. reflexivity. Qed.

(** X11. A load cycle replaces the store: what [this.staleItems] and
    [this.filteredItems] held before plays no part in the result, and a
    second cycle on the same network gives the same [this] as the
    first. *)
Theorem load_cycle_replaces (cfg : Config.t) (net : network) (d : dom)
  (w w' : world) :
  historicalData (this w) = historicalData (this w') ->
  currentSort (this w) = currentSort (this w') ->
  this (snd (loadData cfg net d w)) = this (snd (loadData cfg net d w'))
  /\ this (snd (loadData cfg net d (snd (loadData cfg net d w))))
     = this (snd (loadData cfg net d w)).
Proof.
  intros H1 H2. rewrite !loadData_run.
  cbn [snd this historicalData currentSort].
  now rewrite H1, H2.
Qed.

Lemma load_cycle_replaces_witness :
  this (snd (loadData sampleCfg sampleNet noFilters loadedWorld))
  = this (snd (loadData sampleCfg sampleNet noFilters freshWorld)).
Proof.
  apply (load_cycle_replaces sampleCfg sampleNet noFilters loadedWorld
           freshWorld); reflexivity.
Defined.

Lemma normalized_all (org repo : string) (items : list Raw.t) :
  Forall (fun raw => Raw.user raw <> None) items ->
  map Item.number (normalized org repo items) = map Raw.number items
  /\ map Item.title (normalized org repo items) = map Raw.title items.
Proof.
  induction 1 as [|raw items Hr Hl [IH1 IH2]]; simpl; [auto|].
  destruct (Raw.user raw) as [u|]; [|congruence]. simpl.
  now rewrite IH1, IH2.
Qed.

Lemma normalized_stops (org repo : string) (pre post : list Raw.t)
  (bad : Raw.t) :
  Forall (fun raw => Raw.user raw <> None) pre ->
  Raw.user bad = None ->
  normalized org repo (pre ++ bad :: post) = normalized org repo pre.
Proof.
  intros F Hb. induction F as [|raw pre Hr Hl IH]; simpl.
  - now rewrite Hb.
  - destruct (Raw.user raw) as [u|]; [|congruence]. now rewrite IH.
Qed.

(** X12. On a 2xx answer that is an array of records, [fetchStaleItems]
    appends one item for each record, in the order of the array, with the
    number and the title of the record, as long as the records have a
    [user]; at the first record whose [user] is null it stops, keeping
    the items of the records before it and dropping those after it. *)
Theorem fetch_appends_in_order (cfg : Config.t) (net : network)
  (org repo : string) (st : Z) (items : list Raw.t) (w : world) :
  issuesOf net (issuesUrl org repo) (headers cfg)
  = Response st (Json (Records items)) ->
  200 <= st <= 299 ->
  exists added,
    staleItems (this (snd (fetchStaleItems cfg net org repo w)))
    = staleItems (this w) ++ added
    /\ Forall (fun item => Item.repo item = (org ++ "/" ++ repo)%string)
         added
    /\ (Forall (fun raw => Raw.user raw <> None) items ->
        map Item.number added = map Raw.number items
        /\ map Item.title added = map Raw.title items)
    /\ (forall pre bad post,
          items = pre ++ bad :: post ->
          Forall (fun raw => Raw.user raw <> None) pre ->
          Raw.user bad = None ->
          map Item.number added = map Raw.number pre
          /\ map Item.title added = map Raw.title pre).
Proof.
  intros E Hst. rewrite fetchStaleItems_run. cbn [snd this].
  unfold delivered. rewrite E.
  replace ((200 <=? st) && (st <=? 299)) with true
    by (symmetry; apply andb_true_iff; split; apply Z.leb_le; lia).
  exists (normalized org repo items). split; [reflexivity|].
  split; [|split].
  - apply Forall_forall. intros item H. apply normalized_spec in H.
    destruct H as (raw & u & _ & _ & ->). reflexivity.
  - apply normalized_all.
  - intros pre bad post -> F Hb. rewrite normalized_stops by assumption.
    now apply normalized_all.
Qed.

Lemma fetch_appends_in_order_witness :
  exists added,
    staleItems (this (snd (fetchStaleItems sampleCfg ghostNet "acme" "api"
                             freshWorld)))
    = staleItems (this freshWorld) ++ added
    /\ map Item.number added = [1].
Proof.
  destruct (fetch_appends_in_order sampleCfg ghostNet "acme" "api" 200
              ghostRecords freshWorld eq_refl)
    as (added & E & _ & _ & S); [lia|].
  exists added. split; [exact E|].
  apply (S [rawRecord Undefined "First" 1 1700000000000]
           (nth 1 ghostRecords (rawRecord Undefined "First" 1 0))
           [rawRecord Undefined "Third" 3 1700000000000]).
  - reflexivity.
  - repeat constructor. discriminate.
  - reflexivity.
Defined.

(** ** The History Loader on any network and in any zone *)






Lemma history_window_fixed_zone_witness :
  StronglySorted (fun a b => Snapshot.date a < Snapshot.date b)
    (historicalData
       (this (snd (loadHistoricalData (fixedZone 0) patchyNet noonOfDay100
                     freshWorld)))).
Proof.
  apply (history_window_fixed_zone 0 noonOfDay100 patchyNet freshWorld
           patchyNet_coherent eq_refl).
Defined.

(** ** [updateCharts] *)

(** X15. [updateCharts] draws nothing while there is no history; with a
    history and a period that is neither ["all"] nor starts with an
    integer it draws a trend chart with no point and no breakdown. *)
Theorem updateCharts_edges (tz : timezone) (now : Z) (d : dom)
  (t : dashboard) :
  (historicalData t = [] -> updateCharts tz now d t = None)
  /\ (historicalData t <> [] ->
      trend_period d <> "all" ->
      parseInt (trend_period d) = None ->
      updateCharts tz now d t
      = Some {| trends := {| dates := []; totalStale := [];
                             staleIssues := []; stalePRs := [] |};
                breakdown := None |}).
Proof.
  unfold updateCharts. split.
  - intros ->. reflexivity.
  - intros N A P. destruct (historicalData t) as [|s l] eqn:E;
      [congruence|]. cbn [List.length Nat.eqb].
    unfold periodFilter. apply String.eqb_neq in A. rewrite A, P.
    cbn [negb option_map setDate].
    change (notBefore None) with (fun _ : Snapshot.t => false).
    rewrite filter_false. reflexivity.
Qed.

Lemma updateCharts_edges_witness :
  updateCharts (fixedZone 0) noonOfDay100
    {| repo_filter := EmptyString; type_filter := EmptyString;
       search_filter := EmptyString; trend_period := "week" |}
    historyOnly
  = Some {| trends := {| dates := []; totalStale := [];
                         staleIssues := []; stalePRs := [] |};
            breakdown := None |}.
Proof.
  apply updateCharts_edges; [discriminate|discriminate|reflexivity].
Defined.

Lemma subsequence_map {A B} (f : A -> B) (l1 l2 : list A) :
  subsequence l1 l2 -> subsequence (map f l1) (map f l2).
Proof. induction 1; simpl; now constructor. Qed.

Lemma subsequence_In {A} (l1 l2 : list A) (x : A) :
  subsequence l1 l2 -> In x l1 -> In x l2.
Proof.
  induction 1; simpl; [tauto| |]; intros H0.
  - right. auto.
  - destruct H0; [now left|right; auto].
Qed.

Lemma subsequence_sorted {A} (R : A -> A -> Prop) (l1 l2 : list A) :
  subsequence l1 l2 -> StronglySorted R l2 -> StronglySorted R l1.
Proof.
  induction 1; intros S; [constructor| |].
  - inversion S; subst. auto.
  - inversion S as [|? ? S' F]; subst. constructor; [auto|].
    rewrite Forall_forall in *. intros y Hy. apply F.
    eapply subsequence_In; eauto.
Qed.

Lemma periodFilter_subsequence (tz : timezone) (now : Z) (period : string)
  (l : list Snapshot.t) :
  subsequence (periodFilter tz now period l) l.
Proof.
  unfold periodFilter. destruct (negb (period =? "all")%string).
  - apply subsequence_filter.
  - clear. induction l; now constructor.
Qed.

(** X16. In the trend chart the three series of counts have one value
    for each date shown; the dates shown are dates of the history, in the
    order of the history, so they ascend strictly when the history does;
    and a breakdown is drawn only when some date is shown. *)
Theorem trend_series_aligned (tz : timezone) (now : Z) (d : dom)
  (t : dashboard) (c : charts) :
  updateCharts tz now d t = Some c ->
  List.length (totalStale (trends c)) = List.length (dates (trends c))
  /\ List.length (staleIssues (trends c)) = List.length (dates (trends c))
  /\ List.length (stalePRs (trends c)) = List.length (dates (trends c))
  /\ subsequence (dates (trends c)) (map Snapshot.date (historicalData t))
  /\ (StronglySorted Z.lt (map Snapshot.date (historicalData t)) ->
      StronglySorted Z.lt (dates (trends c)))
  /\ (breakdown c <> None -> dates (trends c) <> []).
Proof.
  unfold updateCharts.
  destruct (List.length (historicalData t) =? 0)%nat; [discriminate|].
  intros E. inversion E; subst c; clear E.
  cbn [trends breakdown renderTrendsChart dates totalStale staleIssues
       stalePRs].
  rewrite !length_map.
  pose proof (periodFilter_subsequence tz now (trend_period d)
                (historicalData t)) as S.
  repeat (split; [reflexivity|]).
  split; [now apply subsequence_map|]. split.
  - apply subsequence_sorted. now apply subsequence_map.
  - destruct (periodFilter tz now (trend_period d) (historicalData t));
      [intros H; now contradiction H|discriminate].
Qed.

Lemma trend_series_aligned_witness :
  exists c,
    updateCharts (fixedZone 0) noonOfDay100 noFilters historyOnly = Some c
    /\ StronglySorted Z.lt (dates (trends c)).
Proof.
  destruct (updateCharts (fixedZone 0) noonOfDay100 noFilters historyOnly)
    as [c|] eqn:E; [|discriminate].
  exists c. split; [reflexivity|].
  apply (trend_series_aligned _ _ _ _ c E).
  simpl. repeat constructor.
Defined.

(** *** A wider window *)

Lemma subsequence_filter_weaker {A} (p q : A -> bool) (l : list A) :
  (forall x, p x = true -> q x = true) ->
  subsequence (filter p l) (filter q l).
Proof.
  intros H. induction l as [|x l IH]; simpl; [constructor|].
  destruct (p x) eqn:Ep.
  - rewrite (H x Ep). now constructor.
  - destruct (q x); [now constructor|exact IH].
Qed.

Lemma cutoff_earlier (tz : timezone) (now n m : Z) :
  boundedShifts tz -> n <= m ->
  addLocalDays tz now (- m) <= addLocalDays tz now (- n).
Proof.
  intros B H. unfold addLocalDays, UTC. rewrite !MakeDate_Day.
  set (tl := LocalTime tz now).
  pose proof (B (tl + - m * msPerDay) (tl + - n * msPerDay)) as Hb.
  destruct (Z.eq_dec n m) as [->|N]; [lia|].
  unfold msPerDay in *. lia.
Qed.

(** X17. A longer period never shows fewer snapshots, as long as its
    cutoff is still a valid Date: in a zone whose offsets stay within a
    day of one another, what the period ["N"] keeps is kept, in the same
    order, by every period ["M"] with [M >= N] whose cutoff is in the
    range of time values, and by ["all"]. *)
Theorem wider_window_keeps_more (tz : timezone) (now n m : Z)
  (historicalData : list Snapshot.t) :
  boundedShifts tz -> 0 < n -> n <= m ->
  setDate tz now (Some (- m)) <> None ->
  subsequence (periodFilter tz now (Number_toString n) historicalData)
    (periodFilter tz now (Number_toString m) historicalData)
  /\ subsequence (periodFilter tz now (Number_toString m) historicalData)
       (periodFilter tz now "all" historicalData).
Proof.
  intros B Hn Hm V. split; [|apply periodFilter_subsequence].
  rewrite !periodFilter_number by lia.
  apply subsequence_filter_weaker. intros d. rewrite !notBefore_clipped.
  cbn [setDate] in V. rewrite TimeClip_None in V.
  pose proof (cutoff_earlier tz now n m B Hm). lia.
Qed.

Lemma newYork2024_boundedShifts : boundedShifts newYork2024.
Proof.
  intros a b. unfold newYork2024, msPerDay, hour; simpl.
  destruct (_ && _), (_ && _); lia.
Qed.

Lemma wider_window_keeps_more_witness :
  periodFilter newYork2024 nov15evening (Number_toString 7) autumn2024
  = [snapshotOf 20040 None]
  /\ periodFilter newYork2024 nov15evening (Number_toString 30) autumn2024
     = [snapshotOf 20032 None; snapshotOf 20040 None]
  /\ subsequence
       (periodFilter newYork2024 nov15evening (Number_toString 7)
          autumn2024)
       (periodFilter newYork2024 nov15evening (Number_toString 30)
          autumn2024).
Proof.
  split; [reflexivity|]. split; [reflexivity|].
  apply (wider_window_keeps_more newYork2024 nov15evening 7 30 autumn2024
           newYork2024_boundedShifts); [lia|lia|].
  vm_compute. discriminate.
Defined.

(** *** The bars and their colours *)

Lemma topRepos_length (repositories : list RepoStat.t) :
  (List.length (topRepos repositories) <= 10)%nat.
Proof.
  unfold topRepos, slice0. rewrite length_firstn. lia.
Qed.

(** X18. Whenever [renderBreakdownChart] builds a chart, its labels, its
    values and its colours are equally many, at most ten, and the colours
    are the first ones of the palette in their order: the ten colours
    never run out. *)
Theorem breakdown_bars_have_colours (data : list Snapshot.t) :
  match renderBreakdownChart data, breakdownColors data with
  | Some bars, Some cs =>
      List.length (staleData bars) = List.length (labels bars)
      /\ List.length cs = List.length (labels bars)
      /\ (List.length (labels bars) <= 10)%nat
      /\ cs = firstn (List.length (labels bars)) colors
  | None, None => True
  | _, _ => False
  end.
Proof.
  unfold renderBreakdownChart, breakdownColors.
  destruct (latestOf data) as [latest|]; [|exact I].
  destruct (Snapshot.repositories latest) as [repositories|]; [|exact I].
  cbn [labels staleData]. rewrite !length_map. unfold slice0.
  pose proof (topRepos_length repositories) as L.
  split; [reflexivity|]. split; [|split; [exact L|reflexivity]].
  rewrite length_firstn. simpl. lia.
Qed.

(** ** Table cells *)

Lemma string_length_append (s t : string) :
  String.length (s ++ t) = (String.length s + String.length t)%nat.
Proof. induction s as [|c s IH]; simpl; [reflexivity|now rewrite IH]. Qed.

Lemma substring0_length (n : nat) (s : string) :
  String.length (substring 0 n s) = Nat.min n (String.length s).
Proof.
  revert s; induction n as [|n IH]; intros [|c s]; simpl; auto.
Qed.

Lemma substring0_all (n : nat) (s : string) :
  (String.length s <= n)%nat -> substring 0 n s = s.
Proof.
  revert s; induction n as [|n IH]; intros [|c s]; simpl; intros H;
    try reflexivity; try lia.
  f_equal. apply IH. lia.
Qed.

Lemma substring0_append (n : nat) (s t : string) :
  (n <= String.length s)%nat ->
  substring 0 n (s ++ t) = substring 0 n s.
Proof.
  revert s; induction n as [|n IH]; intros [|c s]; simpl; intros H;
    try reflexivity; try lia.
  - now destruct t.
  - f_equal. apply IH. lia.
Qed.

(** X19. [truncate] returns a string of at most [maxLength] characters as
    it is; a longer one becomes its first [maxLength] characters followed
    by three dots, which makes [maxLength + 3] characters, so that a
    string one or two characters too long comes out longer than it went
    in.  In both cases the first [maxLength] characters are kept, and
    truncating twice is truncating once. *)
Theorem truncate_spec (str : string) (maxLength : nat) :
  String.length (truncate str maxLength)
  = (if (String.length str <=? maxLength)%nat then String.length str
     else maxLength + 3)%nat
  /\ substring 0 maxLength (truncate str maxLength)
     = substring 0 maxLength str
  /\ truncate (truncate str maxLength) maxLength = truncate str maxLength
  /\ ((String.length str <= maxLength)%nat ->
      truncate str maxLength = str)
  /\ ((maxLength < String.length str)%nat ->
      truncate str maxLength
      = (substring 0 maxLength str ++ "...")%string).
Proof.
  assert (Short : (String.length str <= maxLength)%nat ->
                  truncate str maxLength = str).
  { intros H. unfold truncate. apply Nat.leb_le in H. now rewrite H. }
  assert (Long : (maxLength < String.length str)%nat ->
                 truncate str maxLength
                 = (substring 0 maxLength str ++ "...")%string).
  { intros H. unfold truncate. apply Nat.leb_gt in H. now rewrite H. }
  destruct (Nat.leb_spec (String.length str) maxLength) as [H|H].
  - rewrite !(Short H). repeat split; auto; try (intros; lia).
  - assert (L : String.length (substring 0 maxLength str) = maxLength)
      by (rewrite substring0_length; lia).
    rewrite !(Long H).
    split; [rewrite string_length_append, L; reflexivity|].
    split; [|split; [|split; [intros H'; lia|reflexivity]]].
    + rewrite substring0_append by lia. apply substring0_all. lia.
    + unfold truncate. rewrite string_length_append, L.
      replace (maxLength + String.length "..." <=? maxLength)%nat
        with false by (symmetry; apply Nat.leb_gt; simpl; lia).
      rewrite substring0_append by lia.
      now rewrite substring0_all by lia.
Qed.

Lemma truncate_spec_witness :
  truncate "stale" 3 = "sta..." /\ truncate "stale" 9 = "stale".
Proof.
  split.
  - apply (truncate_spec "stale" 3). simpl. lia.
  - apply (truncate_spec "stale" 9). simpl. lia.
Defined.

(** X20. The label [formatDate] gives depends on the whole days elapsed
    only: "Today" for 0, "Yesterday" for 1, a count of days from 2 to 6,
    of weeks from 1 to 4 up to 29 days, of months from 1 to 12 up to
    364 days, and of years, at least 1, from 365 days on.  A date in the
    future gets a negative count of days. *)
Theorem formatDate_label (now : Z) (date : Date) :
  let days := (now - getTime date) / 86400000 in
  (days = 0 -> formatDate now date = "Today")
  /\ (days = 1 -> formatDate now date = "Yesterday")
  /\ (days < 0 \/ 2 <= days < 7 ->
      formatDate now date = (Number_toString days ++ " days ago")%string)
  /\ (7 <= days < 30 ->
      exists k, 1 <= k <= 4 /\ 7 * k <= days < 7 * (k + 1)
                /\ formatDate now date
                   = (Number_toString k ++ " weeks ago")%string)
  /\ (30 <= days < 365 ->
      exists k, 1 <= k <= 12 /\ 30 * k <= days < 30 * (k + 1)
                /\ formatDate now date
                   = (Number_toString k ++ " months ago")%string)
  /\ (365 <= days ->
      exists k, 1 <= k /\ 365 * k <= days < 365 * (k + 1)
                /\ formatDate now date
                   = (Number_toString k ++ " years ago")%string).
Proof.
  unfold formatDate. change (1000 * 60 * 60 * 24) with 86400000.
  set (days := (now - getTime date) / 86400000). cbv zeta.
  pose proof (Z.div_mod days 7) as D7.
  pose proof (Z.mod_pos_bound days 7) as B7.
  pose proof (Z.div_mod days 30) as D30.
  pose proof (Z.mod_pos_bound days 30) as B30.
  pose proof (Z.div_mod days 365) as D365.
  pose proof (Z.mod_pos_bound days 365) as B365.
  destruct (Z.eqb_spec days 0), (Z.eqb_spec days 1), (Z.ltb_spec days 7),
           (Z.ltb_spec days 30), (Z.ltb_spec days 365);
    repeat split; intros; try lia; try reflexivity.
  - exists (days / 7). repeat split; lia.
  - exists (days / 30). repeat split; lia.
  - exists (days / 365). repeat split; lia.
Qed.

Lemma formatDate_label_witness :
  formatDate noonOfDay100 {| getTime := MakeDate 103 0 |} = "-3 days ago"
  /\ exists k,
       formatDate noonOfDay100 {| getTime := MakeDate 71 0 |}
       = (Number_toString k ++ " weeks ago")%string
       /\ 1 <= k <= 4.
Proof.
  split.
  - apply (formatDate_label noonOfDay100 {| getTime := MakeDate 103 0 |}).
    left. reflexivity.
  - destruct (proj1 (proj2 (proj2 (proj2
                (formatDate_label noonOfDay100
                   {| getTime := MakeDate 71 0 |})))))
      as (k & Hk & Hd & E).
    + split; [discriminate|reflexivity].
    + exists k. split; [exact E|exact Hk].
Defined.

(** The two labels, evaluated. *)
Example formatDate_samples :
  formatDate noonOfDay100 {| getTime := MakeDate 103 0 |} = "-3 days ago"
  /\ formatDate noonOfDay100 {| getTime := MakeDate 71 0 |} = "4 weeks ago"
  /\ formatDate noonOfDay100 {| getTime := MakeDate 99 0 |} = "Yesterday".
Proof. repeat split. Qed.

(** ** The two loads of [init], and a session of events *)

(** X21. The load cycle and the history load work on different fields of
    [this]: run one after the other, in either order, they leave the same
    [this], the items of the one and the history of the other. *)
Theorem loads_commute (cfg : Config.t) (net : network) (d : dom)
  (tz : timezone) (now : Z) (w : world) :
  this (snd (loadHistoricalData tz net now (snd (loadData cfg net d w))))
  = this (snd (loadData cfg net d (snd (loadHistoricalData tz net now w))))
  /\ staleItems
       (this (snd (loadHistoricalData tz net now
                     (snd (loadData cfg net d w)))))
     = staleItems (this (snd (loadData cfg net d w)))
  /\ historicalData
       (this (snd (loadHistoricalData tz net now
                     (snd (loadData cfg net d w)))))
     = historicalData (this (snd (loadHistoricalData tz net now w))).
Proof.
  rewrite !loadHistoricalData_run, !loadData_run.
  cbn [snd this staleItems filteredItems historicalData currentSort].
  repeat split.
Qed.

Lemma tableFromStore_filter (keep : Item.t -> bool) (t : dashboard) :
  filteredItems t = filter keep (staleItems t) -> tableFromStore t.
Proof.
  intros E. exists (filter keep (staleItems t)). split.
  - apply subsequence_filter.
  - now rewrite E.
Qed.

Lemma listener_keeps (cfg : Config.t) (net : network) (d : dom) (e : event)
  (w : world) :
  tableFromStore (this w) ->
  fst (listener cfg net d e w) = Normal tt
  /\ tableFromStore (this (snd (listener cfg net d e w)))
  /\ historicalData (this (snd (listener cfg net d e w)))
     = historicalData (this w)
  /\ (e <> ClickRefresh ->
      staleItems (this (snd (listener cfg net d e w)))
      = staleItems (this w)).
Proof.
  intros T. destruct e; cbn [listener]; unfold clearFilters;
    rewrite ?loadData_run, ?applyFilters_run, ?sortBy_run;
    cbn [fst snd this historicalData staleItems ret].
  - repeat split; [|intros N; congruence].
    now apply (tableFromStore_filter (keepItem d)).
  - repeat split. now apply (tableFromStore_filter (keepItem d)).
  - repeat split. now apply (tableFromStore_filter (keepItem d)).
  - repeat split. now apply (tableFromStore_filter (keepItem d)).
  - repeat split.
    now apply (tableFromStore_filter
                 (keepItem {| repo_filter := EmptyString;
                              type_filter := EmptyString;
                              search_filter := EmptyString;
                              trend_period := trend_period d |})).
  - repeat split. destruct T as (sub & S & P). exists sub.
    split; [exact S|]. cbn [filteredItems].
    etransitivity; [apply sort_perm|exact P].
  - repeat split. exact T.
Qed.

(** X22. Through any session of events (refresh, filter changes, clear,
    header clicks, period changes) no listener throws, the table only
    ever holds items of the store, each at most as often as the store
    holds it, and the history is never touched; and while no refresh
    occurs the store stays as it is. *)
Theorem session_keeps_table_in_store (cfg : Config.t) (net : network)
  (inputs : list (dom * event)) (w : world) :
  tableFromStore (this w) ->
  fst (session cfg net inputs w) = Normal tt
  /\ tableFromStore (this (snd (session cfg net inputs w)))
  /\ historicalData (this (snd (session cfg net inputs w)))
     = historicalData (this w)
  /\ (Forall (fun input => snd input <> ClickRefresh) inputs ->
      staleItems (this (snd (session cfg net inputs w)))
      = staleItems (this w)).
Proof.
  unfold session. revert w.
  induction inputs as [|[d e] inputs IH]; intros w T; simpl.
  - repeat split. exact T.
  - rewrite bind_run.
    destruct (listener_keeps cfg net d e w T) as (N & T' & H & S).
    destruct (listener cfg net d e w) as [c w1]. simpl in *. subst c.
    destruct (IH w1 T') as (N1 & T1 & H1 & S1).
    split; [exact N1|]. split; [exact T1|]. split; [congruence|].
    intros F. inversion F as [|? ? Fe Fi]; subst. simpl in Fe.
    rewrite (S1 Fi). now apply S.
Qed.

Lemma session_keeps_table_in_store_witness :
  tableFromStore
    (this (snd (session sampleCfg sampleNet
                  [ (noFilters, ClickRefresh);
                    (noFilters, ClickSortable "number");
                    (searchOnly {| repo_filter := EmptyString;
                                   type_filter := EmptyString;
                                   search_filter := "crash";
                                   trend_period := "all" |},
                     InputSearchFilter);
                    (noFilters, ClickSortable "title") ]
                  freshWorld))).
Proof.
  apply session_keeps_table_in_store.
  exists []. split; [constructor|reflexivity].
Defined.

(** ** Sorting under a filter *)

Lemma sort_filter_commute {A} (comparefn : A -> A -> Z) (keep : A -> bool)
  (l : list A) :
  (forall x y, comparefn x y < 0 <-> 0 < comparefn y x) ->
  (forall x y z, comparefn x y <= 0 -> comparefn y z <= 0 ->
                 comparefn x z <= 0) ->
  JS.sort comparefn (filter keep l) = filter keep (JS.sort comparefn l).
Proof.
  intros anti trans. symmetry. apply sort_unique; [exact anti|exact trans| |].
  - eapply subsequence_sorted; [apply subsequence_filter|].
    apply sort_sorted; [|exact trans].
    intros x y H. apply anti in H. lia.
  - intros x. rewrite !filter_filter. apply sort_filter.
    intros y z Hy Hz. apply andb_true_iff in Hy, Hz.
    destruct Hy as [_ Hy], Hz as [_ Hz]. apply Z.eqb_eq in Hy, Hz.
    assert (comparefn y x <= 0) by (pose proof (anti x y); lia).
    apply trans with x; lia.
Qed.

(** X23. Sorting the filtered table gives what sorting the unfiltered
    table and then leaving out the rows the filter rejects would give:
    the filter changes which rows are shown, never their relative order
    after a sort. *)
Theorem sort_under_filter (fld : string) (d : dom) (w : world) :
  sortedBy fld (snd (applyFilters d w))
  = filter (keepItem d) (sortedBy fld (snd (clearFilters d w))).
Proof.
  unfold sortedBy, clearFilters. rewrite !sortBy_run, !applyFilters_run.
  cbn [snd this filteredItems currentSort].
  rewrite sort_filter_commute
    by (apply compareItems_anti || apply compareItems_trans).
  f_equal. f_equal.
  induction (staleItems (this w)) as [|i l IH]; [reflexivity|].
  simpl. now rewrite <- IH.
Qed.

(** ** The breakdown and the period *)

Lemma latestOf_filter_snoc (keep : Snapshot.t -> bool)
  (earlier : list Snapshot.t) (latest : Snapshot.t) :
  keep latest = true ->
  latestOf (filter keep (earlier ++ [latest])) = Some latest.
Proof.
  intros H. rewrite filter_app. simpl. rewrite H. apply latestOf_snoc.
Qed.

(** X24. The breakdown does not depend on the period as long as the
    newest snapshot of the history is inside the window: with the period
    ["N"] it is then the same as with ["all"], namely the breakdown of
    that snapshot. *)
Theorem breakdown_ignores_period (tz : timezone) (now n : Z)
  (earlier : list Snapshot.t) (latest : Snapshot.t) :
  0 < n ->
  notBefore (setDate tz now (Some (- n))) latest = true ->
  renderBreakdownChart
    (periodFilter tz now (Number_toString n) (earlier ++ [latest]))
  = renderBreakdownChart (periodFilter tz now "all" (earlier ++ [latest]))
  /\ renderBreakdownChart
       (periodFilter tz now "all" (earlier ++ [latest]))
     = renderBreakdownChart [latest].
Proof.
  intros Hn Hc. rewrite periodFilter_number by exact Hn.
  change (periodFilter tz now "all" (earlier ++ [latest]))
    with (earlier ++ [latest]).
  unfold renderBreakdownChart.
  rewrite latestOf_filter_snoc by exact Hc.
  rewrite latestOf_snoc. split; reflexivity.
Qed.

Lemma breakdown_ignores_period_witness :
  renderBreakdownChart
    (periodFilter (fixedZone 0) noonOfDay100 (Number_toString 7)
       ([snapshotOf 60 None; snapshotOf 90 None]
          ++ [snapshotOf 99 (Some threeRepos)]))
  = renderBreakdownChart [snapshotOf 99 (Some threeRepos)].
Proof.
  destruct (breakdown_ignores_period (fixedZone 0) noonOfDay100 7
              [snapshotOf 60 None; snapshotOf 90 None]
              (snapshotOf 99 (Some threeRepos))) as [E1 E2].
  - lia.
  - reflexivity.
  - rewrite E1. exact E2.
Defined.
